(** * ListUserMultisigs: the wallet-authenticated multisig discovery view

    A shallow embedding of [src/components/dataViews/ListUserMultisigs.tsx]:
    the three asynchronous callbacks ([getSignature], [fetchMultisigs],
    [connectWallet]), the layout effect that subscribes to Keplr's
    account-change event, and the render function, followed by the
    properties the specification states about them.

    Conventions.
    - A JavaScript string is a [string]; each character stands for one
      UTF-16 code unit below 256.  Strings produced by [JSON.parse] may
      hold larger code units and are lists of [N].
    - A [Uint8Array] is a [list byte].
    - An awaited promise is an [outcome]: fulfilled, rejected, or never
      settled.  Synchronous code that may throw returns a [result]. *)

From Stdlib Require Import Strings.String Strings.Ascii Strings.Byte.
From Stdlib Require Import List NArith Bool Arith Lia.
Import ListNotations.
Local Open Scope string_scope.
Set Warnings "-register-all".

(* ================================================================== *)
(** ** JavaScript values shared by the whole file *)

Module Js.

(** What a [throw] or a rejected promise carries.  [Error] is
    [new Error(message)]; the messages of the engine's own
    [SyntaxError] and [TypeError] are engine-defined and not modelled;
    [InvalidReactChild] is React's refusal to render a plain object;
    [NotAnError] is any thrown value that is not an [Error] instance. *)
Inductive exn : Type :=
| Error (message : string)
| SyntaxError
| TypeError
| InvalidReactChild
| NotAnError (label : string).

(** [e instanceof Error]. *)
Definition instanceof_Error (e : exn) : bool :=
  match e with
  | NotAnError _ => false
  | _ => true
  end.

(** Completion of synchronous code. *)
Inductive result (A : Type) : Type :=
| Value (a : A)
| Throw (e : exn).
Arguments Value {A} a.
Arguments Throw {A} e.

(** Settlement of an awaited promise. *)
Inductive outcome (A : Type) : Type :=
| Fulfilled (a : A)
| Rejected (e : exn)
| Pending.
Arguments Fulfilled {A} a.
Arguments Rejected {A} e.
Arguments Pending {A}.

Definition settled {A} (o : outcome A) : bool :=
  match o with
  | Pending => false
  | _ => true
  end.

(** Truthiness of a string: only the empty string is falsy. *)
Definition truthy_string (s : string) : bool :=
  match s with
  | EmptyString => false
  | String _ _ => true
  end.

(** Truthiness of [x?.field] where the field is a string. *)
Definition truthy_opt_string (o : option string) : bool :=
  match o with
  | None => false
  | Some s => truthy_string s
  end.

Definition code (c : ascii) : N := N_of_ascii c.

Definition quote : ascii := "034"%char.
Definition backslash : ascii := "092"%char.

End Js.
Export Js.

(* ================================================================== *)
(** ** Encoders used to build the login challenge *)

Module Encoding.

(** [Buffer.from(s)]: UTF-8 encoding.  Code units below 128 are one
    byte; the others of this model (128..255) are two bytes. *)
Definition utf8_unit (c : ascii) : list byte :=
  let n := code c in
  if (n <? 128)%N then [byte_of_ascii c]
  else [byte_of_ascii (ascii_of_N (192 + n / 64));
        byte_of_ascii (ascii_of_N (128 + n mod 64))].

Fixpoint Buffer_from (s : string) : list byte :=
  match s with
  | EmptyString => []
  | String c rest => utf8_unit c ++ Buffer_from rest
  end.

Definition base64_alphabet : string :=
  "ABCDEFGHIJKLMNOPQRSTUVWXYZabcdefghijklmnopqrstuvwxyz0123456789+/".

Definition sextet (n : N) : ascii :=
  match String.get (N.to_nat n) base64_alphabet with
  | Some c => c
  | None => "="%char
  end.

(** [toBase64] of @cosmjs/encoding: RFC 4648 with padding. *)
Fixpoint toBase64 (data : list byte) : string :=
  match data with
  | [] => ""
  | [a] =>
      let x := Byte.to_N a in
      String (sextet (x / 4)) (String (sextet ((x mod 4) * 16)) "==")
  | [a; b] =>
      let x := Byte.to_N a in
      let y := Byte.to_N b in
      String (sextet (x / 4))
        (String (sextet ((x mod 4) * 16 + y / 16))
           (String (sextet ((y mod 16) * 4)) "="))
  | a :: b :: c :: rest =>
      let x := Byte.to_N a in
      let y := Byte.to_N b in
      let z := Byte.to_N c in
      String (sextet (x / 4))
        (String (sextet ((x mod 4) * 16 + y / 16))
           (String (sextet ((y mod 16) * 4 + z / 64))
              (String (sextet (z mod 64)) (toBase64 rest))))
  end.

Definition hex_digit (n : N) : ascii :=
  match String.get (N.to_nat n) "0123456789abcdef" with
  | Some c => c
  | None => "0"%char
  end.

(** One code unit inside a JSON string literal, as [JSON.stringify]
    writes it (QuoteJSONString). *)
Definition quote_unit (c : ascii) : string :=
  let n := code c in
  if (n =? 8)%N then String backslash "b"
  else if (n =? 9)%N then String backslash "t"
  else if (n =? 10)%N then String backslash "n"
  else if (n =? 12)%N then String backslash "f"
  else if (n =? 13)%N then String backslash "r"
  else if (n =? 34)%N then String backslash (String quote "")
  else if (n =? 92)%N then String backslash (String backslash "")
  else if (n <? 32)%N then
    String backslash ("u00" ++ String (hex_digit (n / 16)) (String (hex_digit (n mod 16)) ""))
  else String c "".

Fixpoint quote_units (s : string) : string :=
  match s with
  | EmptyString => ""
  | String c rest => quote_unit c ++ quote_units rest
  end.

Definition JSON_stringify_string (s : string) : string :=
  String quote (quote_units s ++ String quote "").

(** [JSON.stringify] of an object literal whose values are strings:
    the properties appear in the order they were written. *)
Fixpoint stringify_props (props : list (string * string)) : string :=
  match props with
  | [] => ""
  | [(k, v)] => JSON_stringify_string k ++ ":" ++ JSON_stringify_string v
  | (k, v) :: rest =>
      JSON_stringify_string k ++ ":" ++ JSON_stringify_string v ++ "," ++ stringify_props rest
  end.

Definition JSON_stringify_object (props : list (string * string)) : string :=
  "{" ++ stringify_props props ++ "}".

End Encoding.
Export Encoding.

(* ================================================================== *)
(** ** [JSON.parse] and property reads on what it returns *)

Module Json.

(** A parsed JSON text.  A number keeps its lexeme (its value is the
    IEEE double the lexeme denotes); strings and member names are
    sequences of UTF-16 code units; an object keeps its members in
    source order, duplicates included. *)
Inductive json : Type :=
| JNull
| JBool (b : bool)
| JNumber (lexeme : string)
| JString (units : list N)
| JArray (elements : list json)
| JObject (members : list (list N * json)).

Definition is_ws (c : ascii) : bool :=
  let n := code c in
  ((n =? 32) || (n =? 9) || (n =? 10) || (n =? 13))%N.

Definition is_digit (c : ascii) : bool :=
  let n := code c in ((48 <=? n) && (n <=? 57))%N.

Fixpoint skip_ws (s : string) : string :=
  match s with
  | String c rest => if is_ws c then skip_ws rest else s
  | EmptyString => s
  end.

Fixpoint strip_prefix (p s : string) : option string :=
  match p, s with
  | EmptyString, _ => Some s
  | String a p', String b s' => if Ascii.eqb a b then strip_prefix p' s' else None
  | String _ _, EmptyString => None
  end.

(** Longest run of decimal digits at the head of [s]. *)
Fixpoint span_digits (s : string) : string * string :=
  match s with
  | String c rest =>
      if is_digit c then
        let (ds, r) := span_digits rest in (String c ds, r)
      else (EmptyString, s)
  | EmptyString => (EmptyString, s)
  end.

(** int = "0" | digit1-9 *digit *)
Definition parse_int (s : string) : option (string * string) :=
  match s with
  | String c rest =>
      if Ascii.eqb c "0" then Some ("0", rest)
      else if is_digit c then
        let (ds, r) := span_digits rest in Some (String c ds, r)
      else None
  | EmptyString => None
  end.

(** frac = "." 1*digit, optional *)
Definition parse_frac (s : string) : option (string * string) :=
  match s with
  | String c rest =>
      if Ascii.eqb c "." then
        match span_digits rest with
        | (EmptyString, _) => None
        | (ds, r) => Some (String c ds, r)
        end
      else Some (EmptyString, s)
  | EmptyString => Some (EmptyString, s)
  end.

Definition parse_exp_digits (pre rest : string) : option (string * string) :=
  match span_digits rest with
  | (EmptyString, _) => None
  | (ds, r) => Some (pre ++ ds, r)
  end.

(** exp = ("e" | "E") ["+" | "-"] 1*digit, optional *)
Definition parse_exp (s : string) : option (string * string) :=
  match s with
  | String c rest =>
      if Ascii.eqb c "e" || Ascii.eqb c "E" then
        match rest with
        | String sg rest' =>
            if Ascii.eqb sg "+" || Ascii.eqb sg "-"
            then parse_exp_digits (String c (String sg "")) rest'
            else parse_exp_digits (String c "") rest
        | EmptyString => None
        end
      else Some (EmptyString, s)
  | EmptyString => Some (EmptyString, s)
  end.

Definition parse_unsigned (s : string) : option (string * string) :=
  match parse_int s with
  | Some (i, r1) =>
      match parse_frac r1 with
      | Some (f, r2) =>
          match parse_exp r2 with
          | Some (e, r3) => Some (i ++ f ++ e, r3)
          | None => None
          end
      | None => None
      end
  | None => None
  end.

(** number = ["-"] int [frac] [exp] *)
Definition parse_number (s : string) : option (string * string) :=
  match s with
  | String c rest =>
      if Ascii.eqb c "-" then
        match parse_unsigned rest with
        | Some (l, r) => Some (String c l, r)
        | None => None
        end
      else parse_unsigned s
  | EmptyString => None
  end.

Definition hex_value (c : ascii) : option N :=
  let n := code c in
  if is_digit c then Some (n - 48)%N
  else if ((97 <=? n) && (n <=? 102))%N then Some (n - 87)%N
  else if ((65 <=? n) && (n <=? 70))%N then Some (n - 55)%N
  else None.

Definition hex4 (a b c d : ascii) : option N :=
  match hex_value a, hex_value b, hex_value c, hex_value d with
  | Some x, Some y, Some z, Some t => Some (((x * 16 + y) * 16 + z) * 16 + t)%N
  | _, _, _, _ => None
  end.

(** The character after a backslash, [u] apart. *)
Definition simple_escape (c : ascii) : option N :=
  let n := code c in
  if (n =? 34)%N then Some 34%N          (* quote *)
  else if (n =? 92)%N then Some 92%N     (* backslash *)
  else if (n =? 47)%N then Some 47%N     (* slash *)
  else if (n =? 98)%N then Some 8%N      (* b *)
  else if (n =? 102)%N then Some 12%N    (* f *)
  else if (n =? 110)%N then Some 10%N    (* n *)
  else if (n =? 114)%N then Some 13%N    (* r *)
  else if (n =? 116)%N then Some 9%N     (* t *)
  else None.

Definition cons_unit (n : N) (r : option (list N * string)) : option (list N * string) :=
  match r with
  | Some (us, rest) => Some (n :: us, rest)
  | None => None
  end.

(** The characters of a string literal, after its opening quote, up to
    and including the closing quote. *)
Fixpoint parse_chars (s : string) : option (list N * string) :=
  match s with
  | EmptyString => None
  | String c r =>
      if Ascii.eqb c quote then Some ([], r)
      else if Ascii.eqb c backslash then
        match r with
        | String e r1 =>
            match simple_escape e with
            | Some n => cons_unit n (parse_chars r1)
            | None =>
                if Ascii.eqb e "u" then
                  match r1 with
                  | String h1 (String h2 (String h3 (String h4 r2))) =>
                      match hex4 h1 h2 h3 h4 with
                      | Some n => cons_unit n (parse_chars r2)
                      | None => None
                      end
                  | _ => None
                  end
                else None
            end
        | EmptyString => None
        end
      else if (code c <? 32)%N then None
      else cons_unit (code c) (parse_chars r)
  end.

(** Recursive descent.  Every recursive call is made on a string
    strictly shorter than the one received, so a [fuel] above the length
    of the input is never exhausted ([parse_value_fuel] below). *)
Fixpoint parse_value (fuel : nat) (s : string) : option (json * string) :=
  match fuel with
  | O => None
  | S fuel' =>
      match skip_ws s with
      | EmptyString => None
      | String c r =>
          if Ascii.eqb c "{" then
            match skip_ws r with
            | String c' r' =>
                if Ascii.eqb c' "}" then Some (JObject [], r')
                else
                  match parse_member fuel' r with
                  | Some (m, r1) =>
                      match parse_more_members fuel' r1 with
                      | Some (ms, r2) => Some (JObject (m :: ms), r2)
                      | None => None
                      end
                  | None => None
                  end
            | EmptyString => None
            end
          else if Ascii.eqb c "[" then
            match skip_ws r with
            | String c' r' =>
                if Ascii.eqb c' "]" then Some (JArray [], r')
                else
                  match parse_value fuel' r with
                  | Some (v, r1) =>
                      match parse_more_elements fuel' r1 with
                      | Some (vs, r2) => Some (JArray (v :: vs), r2)
                      | None => None
                      end
                  | None => None
                  end
            | EmptyString => None
            end
          else if Ascii.eqb c quote then
            match parse_chars r with
            | Some (us, r') => Some (JString us, r')
            | None => None
            end
          else if Ascii.eqb c "t" then
            match strip_prefix "rue" r with
            | Some r' => Some (JBool true, r')
            | None => None
            end
          else if Ascii.eqb c "f" then
            match strip_prefix "alse" r with
            | Some r' => Some (JBool false, r')
            | None => None
            end
          else if Ascii.eqb c "n" then
            match strip_prefix "ull" r with
            | Some r' => Some (JNull, r')
            | None => None
            end
          else
            match parse_number (String c r) with
            | Some (l, r') => Some (JNumber l, r')
            | None => None
            end
      end
  end

(** After an element: a comma and the elements that follow, or the
    closing bracket. *)
with parse_more_elements (fuel : nat) (s : string) : option (list json * string) :=
  match fuel with
  | O => None
  | S fuel' =>
      match skip_ws s with
      | String c r =>
          if Ascii.eqb c "," then
            match parse_value fuel' r with
            | Some (v, r1) =>
                match parse_more_elements fuel' r1 with
                | Some (vs, r2) => Some (v :: vs, r2)
                | None => None
                end
            | None => None
            end
          else if Ascii.eqb c "]" then Some ([], r)
          else None
      | EmptyString => None
      end
  end

(** A member: a string, a colon, a value. *)
with parse_member (fuel : nat) (s : string) : option ((list N * json) * string) :=
  match fuel with
  | O => None
  | S fuel' =>
      match skip_ws s with
      | String q r =>
          if Ascii.eqb q quote then
            match parse_chars r with
            | Some (k, r1) =>
                match skip_ws r1 with
                | String c1 r2 =>
                    if Ascii.eqb c1 ":" then
                      match parse_value fuel' r2 with
                      | Some (v, r3) => Some ((k, v), r3)
                      | None => None
                      end
                    else None
                | EmptyString => None
                end
            | None => None
            end
          else None
      | EmptyString => None
      end
  end

(** After a member: a comma and the members that follow, or the closing
    brace. *)
with parse_more_members (fuel : nat) (s : string)
  : option (list (list N * json) * string) :=
  match fuel with
  | O => None
  | S fuel' =>
      match skip_ws s with
      | String c r =>
          if Ascii.eqb c "," then
            match parse_member fuel' r with
            | Some (m, r1) =>
                match parse_more_members fuel' r1 with
                | Some (ms, r2) => Some (m :: ms, r2)
                | None => None
                end
            | None => None
            end
          else if Ascii.eqb c "}" then Some ([], r)
          else None
      | EmptyString => None
      end
  end.

(** [JSON.parse(text)]: one value, white space around it, nothing
    else; a [SyntaxError] otherwise. *)
Definition JSON_parse (text : string) : result json :=
  match parse_value (S (String.length text)) text with
  | Some (v, rest) =>
      match skip_ws rest with
      | EmptyString => Value v
      | String _ _ => Throw SyntaxError
      end
  | None => Throw SyntaxError
  end.

(** What a property read yields: a parsed value, the number that
    [.length] returns, or [undefined]. *)
Inductive jsval : Type :=
| Undefined
| Parsed (j : json)
| Length (n : nat).

Definition units_of (s : string) : list N := map code (list_ascii_of_string s).

Definition units_eqb (a b : list N) : bool :=
  if list_eq_dec N.eq_dec a b then true else false.

(** Own property of a parsed object: the last member of that name. *)
Fixpoint own_property (name : list N) (ms : list (list N * json)) : jsval :=
  match ms with
  | [] => Undefined
  | (k, v) :: rest =>
      match own_property name rest with
      | Undefined => if units_eqb k name then Parsed v else Undefined
      | found => found
      end
  end.

(** [v.name] for the four names this component reads ([value],
    [threshold], [pubkeys], [length]): none is an array index and none
    is inherited from a prototype, so arrays and strings answer only
    [length], objects answer with their own members, numbers and
    booleans with [undefined]; reading from [null] or [undefined]
    throws a [TypeError]. *)
Definition get_property (v : jsval) (name : string) : result jsval :=
  match v with
  | Undefined => Throw TypeError
  | Parsed JNull => Throw TypeError
  | Parsed (JObject ms) => Value (own_property (units_of name) ms)
  | Parsed (JArray l) =>
      if String.eqb name "length" then Value (Length (List.length l)) else Value Undefined
  | Parsed (JString us) =>
      if String.eqb name "length" then Value (Length (List.length us)) else Value Undefined
  | Parsed (JBool _) => Value Undefined
  | Parsed (JNumber _) => Value Undefined
  | Length _ => Value Undefined
  end.

(** Whether React accepts a value as a child: text, numbers, booleans,
    [null] and [undefined] are fine, an array is fine when its items
    are, a plain object is refused. *)
Fixpoint json_child_ok (j : json) : bool :=
  match j with
  | JObject _ => false
  | JArray l => forallb json_child_ok l
  | _ => true
  end.

Definition react_child_ok (v : jsval) : bool :=
  match v with
  | Parsed j => json_child_ok j
  | _ => true
  end.

End Json.
Export Json.

(* ================================================================== *)
(** ** Data the component handles *)

(** The chain in use, from [useChains()]: the fields this file reads. *)
Record ChainInfo : Type := {
  registryName : string;
  chainId : string;
  chainDisplayName : string;
  nodeAddress : string
}.

(** [Omit<WalletInfo, "type">]. *)
Record WalletInfo : Type := {
  address : string;
  pubKey : string
}.

(** A row of the list endpoint ([MultisigFromQuery]): the two fields
    this file reads. *)
Record MultisigFromQuery : Type := {
  multisig_address : string;
  pubkeyJSON : string
}.

Record FetchedMultisigs : Type := {
  created : list MultisigFromQuery;
  belonged : list MultisigFromQuery
}.

(** Modelled from the spec: the declaration of [DbNonce] (in
    [@/types/db], absent from the sources); the specification gives the
    nonce endpoint's answer as [{ nonce: string }]. *)
Record DbNonce : Type := {
  nonce : string
}.

(** What [client.getAccount] resolves to when the account exists. *)
Record Account : Type := {
  account_address : string
}.

(** What [window.keplr.getKey] resolves to. *)
Record Key : Type := {
  bech32Address : string;
  key_pubKey : list byte
}.

Record Coin : Type := {
  denom : string;
  coin_amount : string
}.

Record StdFee : Type := {
  gas : string;
  amount : list Coin
}.

Record MsgSignData : Type := {
  signer : string;
  data : string
}.

Record AminoMsg : Type := {
  type : string;
  value : MsgSignData
}.

Record StdSignDoc : Type := {
  chain_id : string;
  account_number : string;
  sequence : string;
  fee : StdFee;
  msgs : list AminoMsg;
  memo : string
}.

Record Pubkey : Type := {
  pubkey_type : string;
  pubkey_value : string
}.

Record StdSignature : Type := {
  pub_key : Pubkey;
  signature_base64 : string
}.

Record AminoSignResponse : Type := {
  signed : StdSignDoc;
  signature : StdSignature
}.

(** Body of the list request: [{ signature, chain }]. *)
Record ListRequestBody : Type := {
  body_signature : StdSignature;
  body_chain : ChainInfo
}.

Record KeplrSignOptions : Type := {
  preferNoSetFee : bool;
  preferNoSetMemo : bool;
  disableBalanceCheck : bool
}.

(** The four [useState] cells. *)
Record State : Type := {
  loading : bool;
  walletInfo : option WalletInfo;
  showBelonged : bool;
  multisigs : option FetchedMultisigs
}.

(** Their initial values. *)
Definition initialState : State :=
  {| loading := false; walletInfo := None; showBelonged := false; multisigs := None |}.

Definition setLoading (b : bool) (st : State) : State :=
  {| loading := b; walletInfo := walletInfo st;
     showBelonged := showBelonged st; multisigs := multisigs st |}.

Definition setWalletInfo (wi : option WalletInfo) (st : State) : State :=
  {| loading := loading st; walletInfo := wi;
     showBelonged := showBelonged st; multisigs := multisigs st |}.

Definition setShowBelonged (b : bool) (st : State) : State :=
  {| loading := loading st; walletInfo := walletInfo st;
     showBelonged := b; multisigs := multisigs st |}.

Definition setMultisigs (m : option FetchedMultisigs) (st : State) : State :=
  {| loading := loading st; walletInfo := walletInfo st;
     showBelonged := showBelonged st; multisigs := m |}.

(* ================================================================== *)
(** ** The collaborators and the calls made to them *)

(** How the outside answers during one invocation: the node client,
    the backend behind [requestJson] (once typed as [DbNonce], once as
    [FetchedMultisigs]), the Keplr extension, and the helper
    [getConnectError] of [@/lib/errorHelpers].  A call on an absent
    [window.keplr] is a rejection with a [TypeError]. *)
Record World : Type := {
  StargateClient_connect : string -> outcome unit;
  client_getAccount : string -> outcome (option Account);
  requestJson_nonce : string -> outcome DbNonce;
  requestJson_list : string -> ListRequestBody -> outcome FetchedMultisigs;
  keplr_enable : string -> outcome unit;
  keplr_getKey : string -> outcome Key;
  keplr_signAmino : string -> string -> StdSignDoc -> outcome AminoSignResponse;
  getConnectError : exn -> string
}.

(** Every externally visible action, in the order it is taken. *)
Inductive event : Type :=
| Connect (node : string)
| GetAccount (addr : string)
| RequestJson (url : string) (body : option ListRequestBody)
| KeplrEnable (chain : string)
| KeplrDefaultOptions (sign : KeplrSignOptions)
| KeplrGetKey (chain : string)
| KeplrSignAmino (chain : string) (signerAddress : string) (doc : StdSignDoc)
| ConsoleError (label : string) (e : exn)
| ToastError (description : string) (fullError : option exn).

Definition is_sign_request (ev : event) : bool :=
  match ev with
  | KeplrSignAmino _ _ _ => true
  | _ => false
  end.

Definition is_network_request (ev : event) : bool :=
  match ev with
  | Connect _ | GetAccount _ | RequestJson _ _ => true
  | _ => false
  end.

(* ================================================================== *)
(** ** Asynchronous code: state, log of calls, and rejection *)

Module Task.

(** What an asynchronous function has done so far. *)
Record Run : Type := {
  ui : State;
  log : list event
}.

Definition Task (A : Type) : Type := Run -> outcome A * Run.

Definition ret {A} (a : A) : Task A := fun r => (Fulfilled a, r).

Definition throw {A} (e : exn) : Task A := fun r => (Rejected e, r).

Definition bind {A B} (m : Task A) (k : A -> Task B) : Task B :=
  fun r =>
    match m r with
    | (Fulfilled a, r') => k a r'
    | (Rejected e, r') => (Rejected e, r')
    | (Pending, r') => (Pending, r')
    end.

(** [await call(...)]: the call is logged, then the task continues
    with its settlement, or stays suspended if there is none. *)
Definition await {A} (ev : event) (o : outcome A) : Task A :=
  fun r => (o, {| ui := ui r; log := log r ++ [ev] |}).

(** A call that returns at once ([console.error], [toastError], an
    assignment on [window.keplr]). *)
Definition emit (ev : event) : Task unit := await ev (Fulfilled tt).

Definition setState (f : State -> State) : Task unit :=
  fun r => (Fulfilled tt, {| ui := f (ui r); log := log r |}).

(** [try { m } catch (e) { h e }] *)
Definition try_catch {A} (m : Task A) (h : exn -> Task A) : Task A :=
  fun r =>
    match m r with
    | (Rejected e, r') => h e r'
    | other => other
    end.

(** [try { m } finally { f }]: [f] runs once [m] has settled, and a
    rejection of [f] replaces the settlement of [m]. *)
Definition try_finally {A} (m : Task A) (f : Task unit) : Task A :=
  fun r =>
    match m r with
    | (Pending, r') => (Pending, r')
    | (settlement, r') =>
        match f r' with
        | (Fulfilled _, r'') => (settlement, r'')
        | (Rejected e, r'') => (Rejected e, r'')
        | (Pending, r'') => (Pending, r'')
        end
    end.

Declare Scope task_scope.
Delimit Scope task_scope with task.
Notation "x <- m ;; k" := (bind m (fun x => k))
  (at level 61, m at next level, right associativity) : task_scope.
Notation "m ;; k" := (bind m (fun _ => k))
  (at level 61, right associativity) : task_scope.

End Task.
Export Task.
Local Open Scope task_scope.

(* ================================================================== *)
(** ** The callbacks of the component *)

Section Callbacks.

Variable w : World.
Variable chain : ChainInfo.

(** The payload of the login message (the [data] field): the JSON
    text of [{ title, description, nonce }], UTF-8 encoded, in
    base64. *)
Definition challengeData (displayName : string) (n : string) : string :=
  toBase64
    (Buffer_from
       (JSON_stringify_object
          [("title", "Keplr Login to " ++ displayName);
           ("description", "Sign this no fee transaction to login with your Keplr wallet");
           ("nonce", n)])).

(** The document handed to [signAmino]. *)
Definition loginSignDoc (signerAddress : string) (n : string) : StdSignDoc :=
  {| chain_id := "";
     account_number := "0";
     sequence := "0";
     fee := {| gas := "0"; amount := [] |};
     msgs :=
       [ {| type := "sign/MsgSignData";
            value := {| signer := signerAddress;
                        data := challengeData (chainDisplayName chain) n |} |} ];
     memo := "" |}.

Definition nonceUrl (accountAddress : string) : string :=
  "/api/chain/" ++ chainId chain ++ "/nonce/" ++ accountAddress.

Definition listUrl : string :=
  "/api/chain/" ++ chainId chain ++ "/multisig/list".

Definition getSignature (address : string) : Task StdSignature :=
  _ <- await (Connect (nodeAddress chain))
             (StargateClient_connect w (nodeAddress chain)) ;;
  accountOnChain <- await (GetAccount address) (client_getAccount w address) ;;
  match accountOnChain with
  | None => throw (Error ("Account not found on chain for " ++ address))
  | Some account =>
      let signerAddress := account_address account in
      answer <- await (RequestJson (nonceUrl signerAddress) None)
                      (requestJson_nonce w (nonceUrl signerAddress)) ;;
      let doc := loginSignDoc signerAddress (nonce answer) in
      response <- await (KeplrSignAmino (chainId chain) signerAddress doc)
                        (keplr_signAmino w (chainId chain) signerAddress doc) ;;
      ret (signature response)
  end.

Definition fullError (e : exn) : option exn :=
  if instanceof_Error e then Some e else None.

Definition listBody (sig : StdSignature) : ListRequestBody :=
  {| body_signature := sig; body_chain := chain |}.

(** The [try] block of [fetchMultisigs]. *)
Definition fetchAttempt (address : string) : Task unit :=
  sig <- getSignature address ;;
  newMultisigs <- await (RequestJson listUrl (Some (listBody sig)))
                        (requestJson_list w listUrl (listBody sig)) ;;
  setState (setMultisigs (Some newMultisigs)).

(** Its [catch] block. *)
Definition fetchFailed (e : exn) : Task unit :=
  emit (ConsoleError "Failed to fetch multisigs:" e) ;;
  emit (ToastError "Failed to fetch multisigs" (fullError e)).

Definition fetchMultisigs (address : string) : Task unit :=
  try_catch (fetchAttempt address) fetchFailed.

Definition connectWallet : Task unit :=
  try_finally
    (try_catch
       (setState (setLoading true) ;;
        _ <- await (KeplrEnable (chainId chain)) (keplr_enable w (chainId chain)) ;;
        emit (KeplrDefaultOptions
                {| preferNoSetFee := true;
                   preferNoSetMemo := true;
                   disableBalanceCheck := true |}) ;;
        key <- await (KeplrGetKey (chainId chain)) (keplr_getKey w (chainId chain)) ;;
        let address := bech32Address key in
        let pubKey := toBase64 (key_pubKey key) in
        setState (setWalletInfo (Some {| address := address; pubKey := pubKey |})) ;;
        fetchMultisigs address)
       (fun e =>
          let connectError := getConnectError w e in
          emit (ConsoleError connectError e) ;;
          emit (ToastError connectError (fullError e))))
    (setState (setLoading false)).

End Callbacks.

(** The step at which the [try] block of [fetchMultisigs] is left by
    an exception, and the exception: the node connection, the account
    lookup (rejected, or answered with no account), the nonce request,
    the signature request, the list request. *)
Inductive FetchFailure (w : World) (chain : ChainInfo) (address : string) : exn -> Prop :=
| ConnectFailed e :
    StargateClient_connect w (nodeAddress chain) = Rejected e ->
    FetchFailure w chain address e
| LookupFailed e :
    StargateClient_connect w (nodeAddress chain) = Fulfilled tt ->
    client_getAccount w address = Rejected e ->
    FetchFailure w chain address e
| AccountMissing :
    StargateClient_connect w (nodeAddress chain) = Fulfilled tt ->
    client_getAccount w address = Fulfilled None ->
    FetchFailure w chain address (Error ("Account not found on chain for " ++ address))
| NonceFailed account e :
    StargateClient_connect w (nodeAddress chain) = Fulfilled tt ->
    client_getAccount w address = Fulfilled (Some account) ->
    requestJson_nonce w (nonceUrl chain (account_address account)) = Rejected e ->
    FetchFailure w chain address e
| SigningFailed account n e :
    StargateClient_connect w (nodeAddress chain) = Fulfilled tt ->
    client_getAccount w address = Fulfilled (Some account) ->
    requestJson_nonce w (nonceUrl chain (account_address account)) = Fulfilled n ->
    keplr_signAmino w (chainId chain) (account_address account)
      (loginSignDoc chain (account_address account) (nonce n)) = Rejected e ->
    FetchFailure w chain address e
| ListFailed account n response e :
    StargateClient_connect w (nodeAddress chain) = Fulfilled tt ->
    client_getAccount w address = Fulfilled (Some account) ->
    requestJson_nonce w (nonceUrl chain (account_address account)) = Fulfilled n ->
    keplr_signAmino w (chainId chain) (account_address account)
      (loginSignDoc chain (account_address account) (nonce n)) = Fulfilled response ->
    requestJson_list w (listUrl chain) (listBody chain (signature response)) = Rejected e ->
    FetchFailure w chain address e.

(** The payload of each message of a sign document. *)
Definition payload (doc : StdSignDoc) : list string :=
  map (fun m => data (value m)) (msgs doc).

(** The [onCheckedChange] handler of the switch. *)
Definition onCheckedChange (checked : bool) : Task unit :=
  setState (setShowBelonged checked).

(** A callback started on the current state with an empty log. *)
Definition start (st : State) : Run := {| ui := st; log := [] |}.

(* ================================================================== *)
(** ** Rendering *)

Module Render.

Definition and_then {A B} (r : result A) (k : A -> result B) : result B :=
  match r with
  | Value a => k a
  | Throw e => Throw e
  end.

(** [l.map(f)] when [f] may throw: the first throw ends the map. *)
Fixpoint map_result {A B} (f : A -> result B) (l : list A) : result (list B) :=
  match l with
  | [] => Value []
  | x :: rest =>
      and_then (f x) (fun y =>
      and_then (map_result f rest) (fun ys => Value (y :: ys)))
  end.

(** One link of the list: its key, its target, and the two values
    shown in the badge. *)
Record Row : Type := {
  row_key : string;
  href : string;
  threshold : jsval;
  members : jsval
}.

(** The body of the [map] callback. *)
Definition renderRow (chain : ChainInfo) (multisig : MultisigFromQuery) : result Row :=
  and_then (JSON_parse (pubkeyJSON multisig)) (fun pubkey =>
  and_then (get_property (Parsed pubkey) "value") (fun v =>
  and_then (get_property v "threshold") (fun t =>
  and_then (get_property v "pubkeys") (fun pubkeys =>
  and_then (get_property pubkeys "length") (fun n =>
  Value {| row_key := multisig_address multisig;
           href := "/" ++ registryName chain ++ "/" ++ multisig_address multisig;
           threshold := t;
           members := n |}))))).

Definition row_children_ok (r : Row) : bool :=
  react_child_ok (threshold r) && react_child_ok (members r).

(** [showBelonged ? multisigs.belonged : multisigs.created] *)
Definition displayedSet (show : bool) (m : FetchedMultisigs) : list MultisigFromQuery :=
  if show then belonged m else created m.

(** [multisigs.created.length !== multisigs.belonged.length] *)
Definition lengthsDiffer (m : FetchedMultisigs) : bool :=
  negb (Nat.eqb (length (created m)) (length (belonged m))).

(** [multisigs?.created.length || multisigs?.belonged.length] *)
Definition anyMultisig (m : FetchedMultisigs) : bool :=
  negb (Nat.eqb (length (created m)) 0) || negb (Nat.eqb (length (belonged m)) 0).

(** The fragment under the two texts: the switch (with its [checked]
    value) when it is offered, then the rows. *)
Record ListSection : Type := {
  switch : option bool;
  rows : list Row
}.

(** What is on screen after a render. *)
Record View : Type := {
  verifyButton : option bool;       (* the button, with its [disabled] value *)
  loadingMultisigs : bool;          (* the spinner with its caption *)
  noneCreatedText : bool;
  notMemberText : bool;
  listSection : option ListSection
}.

Definition isNull {A} (o : option A) : bool :=
  match o with
  | None => true
  | Some _ => false
  end.

Definition renderListSection (chain : ChainInfo) (st : State)
  : result (option ListSection) :=
  match multisigs st with
  | None => Value None
  | Some m =>
      if anyMultisig m then
        let toggle := if lengthsDiffer m then Some (showBelonged st) else None in
        and_then (map_result (renderRow chain) (displayedSet (showBelonged st) m))
          (fun rs =>
             if forallb row_children_ok rs
             then Value (Some {| switch := toggle; rows := rs |})
             else Throw InvalidReactChild)
      else Value None
  end.

(** The component function followed by React's rendering of what it
    returned: either a view, or the exception that ended the render
    (then nothing of this render reaches the screen). *)
Definition render (chain : ChainInfo) (st : State) : result View :=
  and_then (renderListSection chain st) (fun section =>
  Value
    {| verifyButton :=
         if isNull (walletInfo st) && isNull (multisigs st)
         then Some (loading st) else None;
       loadingMultisigs := negb (isNull (walletInfo st)) && isNull (multisigs st);
       noneCreatedText :=
         match multisigs st with
         | Some m => negb (showBelonged st) && Nat.eqb (length (created m)) 0
         | None => false
         end;
       notMemberText :=
         match multisigs st with
         | Some m => showBelonged st && Nat.eqb (length (belonged m)) 0
         | None => false
         end;
       listSection := section |}).

(** The switch is part of a view. *)
Definition switchShown (v : View) : bool :=
  match listSection v with
  | Some s => negb (isNull (switch s))
  | None => false
  end.

(** The switch is on screen after the render of a state: the render
    produced a view and the view has the switch.  A render that throws
    puts nothing of its own on screen. *)
Definition switchOnScreen (chain : ChainInfo) (st : State) : bool :=
  match render chain st with
  | Value v => switchShown v
  | Throw _ => false
  end.

(** An entry gives a row React can show. *)
Definition rowRenders (chain : ChainInfo) (x : MultisigFromQuery) : Prop :=
  exists row, renderRow chain x = Value row /\ row_children_ok row = true.

(** The keys of the rows of a view, top to bottom. *)
Definition shownKeys (v : View) : list string :=
  match listSection v with
  | Some s => map row_key (rows s)
  | None => []
  end.

End Render.
Export Render.

(* ================================================================== *)
(** ** The layout effect: the account-change subscription *)

Module Effect.

Definition accountChangeKey : string := "keplr_keystorechange".

(** A registered listener is the [connectWallet] closure of some
    render; [useCallback] keeps that closure while [chain] is the
    same, so the closure is identified with the chain it captured. *)
Definition Listener : Type := ChainInfo.

Definition ChainInfo_eqb (a b : ChainInfo) : bool :=
  String.eqb (registryName a) (registryName b)
  && String.eqb (chainId a) (chainId b)
  && String.eqb (chainDisplayName a) (chainDisplayName b)
  && String.eqb (nodeAddress a) (nodeAddress b).

(** Calls on [window]. *)
Inductive dom_call : Type :=
| AddEventListener (key : string) (l : Listener)
| RemoveEventListener (key : string) (l : Listener).

(** The dependency array [[connectWallet, walletInfo?.address]]. *)
Definition Deps : Type := (Listener * option string)%type.

Definition depsOf (chain : ChainInfo) (st : State) : Deps :=
  (chain, option_map address (walletInfo st)).

Definition option_string_eqb (a b : option string) : bool :=
  match a, b with
  | None, None => true
  | Some x, Some y => String.eqb x y
  | _, _ => false
  end.

Definition Deps_eqb (a b : Deps) : bool :=
  ChainInfo_eqb (fst a) (fst b) && option_string_eqb (snd a) (snd b).

(** The mounted component as React holds it, with the listeners it
    has on [window] for the account-change key and the calls it has
    made there. *)
Record Mounted : Type := {
  lastDeps : option Deps;            (* of the last commit *)
  cleanup : option Listener;         (* returned by the last run of the effect *)
  listeners : list Listener;
  calls : list dom_call
}.

Definition unmounted : Mounted :=
  {| lastDeps := None; cleanup := None; listeners := []; calls := [] |}.

(** [window.addEventListener]: a listener already present is not
    added again. *)
Definition addEventListener (l : Listener) (ls : list Listener) : list Listener :=
  if existsb (ChainInfo_eqb l) ls then ls else ls ++ [l].

Definition removeEventListener (l : Listener) (ls : list Listener) : list Listener :=
  filter (fun x => negb (ChainInfo_eqb l x)) ls.

(** The function returned by the effect, when React calls it. *)
Definition runCleanup (c : Mounted) : Mounted :=
  match cleanup c with
  | None => c
  | Some l =>
      {| lastDeps := lastDeps c;
         cleanup := None;
         listeners := removeEventListener l (listeners c);
         calls := calls c ++ [RemoveEventListener accountChangeKey l] |}
  end.

(** [walletInfo?.address] is truthy: there is an identity and its
    address is not the empty string. *)
Definition hasAddress (st : State) : bool :=
  truthy_opt_string (option_map address (walletInfo st)).

(** The effect body, for the render of [chain] and [st]. *)
Definition runEffect (chain : ChainInfo) (st : State) (c : Mounted) : Mounted :=
  if negb (hasAddress st) then
    {| lastDeps := Some (depsOf chain st);
       cleanup := None;
       listeners := listeners c;
       calls := calls c |}
  else
    {| lastDeps := Some (depsOf chain st);
       cleanup := Some chain;
       listeners := addEventListener chain (listeners c);
       calls := calls c ++ [AddEventListener accountChangeKey chain] |}.

(** A render of [chain] and [st] is committed: on the first commit,
    and whenever a dependency changed, React calls the previous
    cleanup and runs the effect again. *)
Definition commit (chain : ChainInfo) (st : State) (c : Mounted) : Mounted :=
  match lastDeps c with
  | Some d =>
      if Deps_eqb d (depsOf chain st) then c
      else runEffect chain st (runCleanup c)
  | None => runEffect chain st (runCleanup c)
  end.

(** The component is discarded. *)
Definition unmount (c : Mounted) : Mounted := runCleanup c.

(** A life of the component: the renders committed, oldest first. *)
Fixpoint commits (rs : list (ChainInfo * State)) (c : Mounted) : Mounted :=
  match rs with
  | [] => c
  | (chain, st) :: rest => commits rest (commit chain st c)
  end.

(** Replaying calls on [window]: the listener awaiting its removal, or
    [None] when a registration is made while another is outstanding or
    a removal does not match the outstanding registration. *)
Fixpoint outstanding (cs : list dom_call) (held : option Listener)
  : option (option Listener) :=
  match cs with
  | [] => Some held
  | AddEventListener _ l :: rest =>
      match held with
      | None => outstanding rest (Some l)
      | Some _ => None
      end
  | RemoveEventListener _ l :: rest =>
      match held with
      | Some l' => if ChainInfo_eqb l l' then outstanding rest None else None
      | None => None
      end
  end.

(** What React has set up after a commit of [chain] and [st]: the
    dependencies recorded, the cleanup to call next, the listeners on
    [window], and a well-bracketed history of calls. *)
Definition Subscribed (chain : ChainInfo) (st : State) (c : Mounted) : Prop :=
  lastDeps c = Some (depsOf chain st)
  /\ cleanup c = (if hasAddress st then Some chain else None)
  /\ listeners c = (if hasAddress st then [chain] else [])
  /\ outstanding (calls c) None = Some (cleanup c).

End Effect.
Export Effect.

(* ================================================================== *)
(** ** Sample collaborators, used to run the callbacks on concrete input *)

Module Samples.

Definition cosmoshub : ChainInfo :=
  {| registryName := "cosmoshub";
     chainId := "cosmoshub-4";
     chainDisplayName := "Cosmos Hub";
     nodeAddress := "https://rpc.cosmos.network" |}.

Definition otherhub : ChainInfo :=
  {| registryName := "osmosis";
     chainId := "osmosis-1";
     chainDisplayName := "Cosmos Hub";
     nodeAddress := "https://rpc.osmosis.zone" |}.

Definition aliceKey : Key :=
  {| bech32Address := "cosmos1alice"; key_pubKey := [x02; xa1; x5c] |}.

Definition bobKey : Key :=
  {| bech32Address := "osmo1bob"; key_pubKey := [x03; x10; xff; x00] |}.

Definition aliceInfo : WalletInfo :=
  {| address := "cosmos1alice"; pubKey := "AqFc" |}.

Definition aliceSignature : StdSignature :=
  {| pub_key := {| pubkey_type := "tendermint/PubKeySecp256k1"; pubkey_value := "AqFc" |};
     signature_base64 := "c2lnbmVk" |}.

(** [{"value":{"threshold":"2","pubkeys":[1,2,3]}}] *)
Definition goodPubkeyJSON : string :=
  "{" ++ JSON_stringify_string "value" ++ ":{"
      ++ JSON_stringify_string "threshold" ++ ":" ++ JSON_stringify_string "2" ++ ","
      ++ JSON_stringify_string "pubkeys" ++ ":[1,2,3]}}".

Definition goodEntry (a : string) : MultisigFromQuery :=
  {| multisig_address := a; pubkeyJSON := goodPubkeyJSON |}.

Definition badEntry (a : string) : MultisigFromQuery :=
  {| multisig_address := a; pubkeyJSON := "{" |}.

(** Scenario D of the specification: two created, five belonged. *)
Definition twoAndFive : FetchedMultisigs :=
  {| created := [goodEntry "cosmos1m1"; goodEntry "cosmos1m2"];
     belonged := [goodEntry "cosmos1m1"; goodEntry "cosmos1m2"; goodEntry "cosmos1m3";
                  goodEntry "cosmos1m4"; goodEntry "cosmos1m5"] |}.

(** A result with a row whose [pubkeyJSON] is not JSON. *)
Definition oneMalformed : FetchedMultisigs :=
  {| created := [badEntry "cosmos1m1"]; belonged := [] |}.

(** A key whose address is the empty string. *)
Definition blankKey : Key :=
  {| bech32Address := ""; key_pubKey := [x02; xa1; x5c] |}.

(** Every collaborator answers; the backend lists [m]. *)
Definition answering (key : Key) (m : FetchedMultisigs) : World :=
  {| StargateClient_connect := fun _ => Fulfilled tt;
     client_getAccount := fun a => Fulfilled (Some {| account_address := a |});
     requestJson_nonce := fun _ => Fulfilled {| nonce := "7" |};
     requestJson_list := fun _ _ => Fulfilled m;
     keplr_enable := fun _ => Fulfilled tt;
     keplr_getKey := fun _ => Fulfilled key;
     keplr_signAmino := fun _ _ doc =>
       Fulfilled {| signed := doc; signature := aliceSignature |};
     getConnectError := fun _ => "Failed to connect to Keplr" |}.

(** The address has never been seen on chain. *)
Definition unknownAccount : World :=
  {| StargateClient_connect := fun _ => Fulfilled tt;
     client_getAccount := fun _ => Fulfilled None;
     requestJson_nonce := requestJson_nonce (answering aliceKey twoAndFive);
     requestJson_list := requestJson_list (answering aliceKey twoAndFive);
     keplr_enable := fun _ => Fulfilled tt;
     keplr_getKey := fun _ => Fulfilled aliceKey;
     keplr_signAmino := keplr_signAmino (answering aliceKey twoAndFive);
     getConnectError := fun _ => "Failed to connect to Keplr" |}.

(** The nonce endpoint answers HTTP 500. *)
Definition nonceDown : World :=
  {| StargateClient_connect := fun _ => Fulfilled tt;
     client_getAccount := fun a => Fulfilled (Some {| account_address := a |});
     requestJson_nonce := fun _ => Rejected (Error "500 Internal Server Error");
     requestJson_list := requestJson_list (answering aliceKey twoAndFive);
     keplr_enable := fun _ => Fulfilled tt;
     keplr_getKey := fun _ => Fulfilled aliceKey;
     keplr_signAmino := keplr_signAmino (answering aliceKey twoAndFive);
     getConnectError := fun _ => "Failed to connect to Keplr" |}.

(** The list endpoint rejects the signature. *)
Definition listDown : World :=
  {| StargateClient_connect := fun _ => Fulfilled tt;
     client_getAccount := fun a => Fulfilled (Some {| account_address := a |});
     requestJson_nonce := fun _ => Fulfilled {| nonce := "7" |};
     requestJson_list := fun _ _ => Rejected (Error "401 Unauthorized");
     keplr_enable := fun _ => Fulfilled tt;
     keplr_getKey := fun _ => Fulfilled aliceKey;
     keplr_signAmino := keplr_signAmino (answering aliceKey twoAndFive);
     getConnectError := fun _ => "Failed to connect to Keplr" |}.

(** A state in which a result is held. *)
Definition holding (show : bool) (m : FetchedMultisigs) : State :=
  {| loading := false; walletInfo := Some aliceInfo;
     showBelonged := show; multisigs := Some m |}.

End Samples.

(* ================================================================== *)
(** ** Further collaborators and results, for the properties beyond the
    specification's *)

Module Scenarios.

(** The user declines the connection request of the extension. *)
Definition agentRefuses : World :=
  {| StargateClient_connect := fun _ => Fulfilled tt;
     client_getAccount := fun a => Fulfilled (Some {| account_address := a |});
     requestJson_nonce := fun _ => Fulfilled {| nonce := "7" |};
     requestJson_list := fun _ _ => Fulfilled Samples.twoAndFive;
     keplr_enable := fun _ => Rejected (Error "Request rejected");
     keplr_getKey := fun _ => Fulfilled Samples.aliceKey;
     keplr_signAmino := keplr_signAmino (Samples.answering Samples.aliceKey Samples.twoAndFive);
     getConnectError := fun _ => "Failed to connect to Keplr" |}.

(** The extension is enabled and never answers the request for the key. *)
Definition keyHangs : World :=
  {| StargateClient_connect := fun _ => Fulfilled tt;
     client_getAccount := fun a => Fulfilled (Some {| account_address := a |});
     requestJson_nonce := fun _ => Fulfilled {| nonce := "7" |};
     requestJson_list := fun _ _ => Fulfilled Samples.twoAndFive;
     keplr_enable := fun _ => Fulfilled tt;
     keplr_getKey := fun _ => Pending;
     keplr_signAmino := keplr_signAmino (Samples.answering Samples.aliceKey Samples.twoAndFive);
     getConnectError := fun _ => "Failed to connect to Keplr" |}.

(** The node answers with an account whose address is not the string it
    was asked about. *)
Definition canonicalising : World :=
  {| StargateClient_connect := fun _ => Fulfilled tt;
     client_getAccount := fun _ => Fulfilled (Some {| account_address := "cosmos1canonical" |});
     requestJson_nonce := fun _ => Fulfilled {| nonce := "7" |};
     requestJson_list := fun _ _ => Fulfilled Samples.twoAndFive;
     keplr_enable := fun _ => Fulfilled tt;
     keplr_getKey := fun _ => Fulfilled Samples.aliceKey;
     keplr_signAmino := keplr_signAmino (Samples.answering Samples.aliceKey Samples.twoAndFive);
     getConnectError := fun _ => "Failed to connect to Keplr" |}.

(** The list request is never answered. *)
Definition listHangs : World :=
  {| StargateClient_connect := fun _ => Fulfilled tt;
     client_getAccount := fun a => Fulfilled (Some {| account_address := a |});
     requestJson_nonce := fun _ => Fulfilled {| nonce := "7" |};
     requestJson_list := fun _ _ => Pending;
     keplr_enable := fun _ => Fulfilled tt;
     keplr_getKey := fun _ => Fulfilled Samples.aliceKey;
     keplr_signAmino := keplr_signAmino (Samples.answering Samples.aliceKey Samples.twoAndFive);
     getConnectError := fun _ => "Failed to connect to Keplr" |}.

(** One well-formed created row; two belonged rows, the first of them
    malformed. *)
Definition hiddenMalformed : FetchedMultisigs :=
  {| created := [Samples.goodEntry "cosmos1m1"];
     belonged := [Samples.badEntry "cosmos1m0"; Samples.goodEntry "cosmos1m1"] |}.

(** The same with the malformed row repaired. *)
Definition hiddenRepaired : FetchedMultisigs :=
  {| created := [Samples.goodEntry "cosmos1m1"];
     belonged := [Samples.goodEntry "cosmos1m0"; Samples.goodEntry "cosmos1m1"] |}.

(** A row whose [pubkeyJSON] is JSON but not an object. *)
Definition nullEntry (a : string) : MultisigFromQuery :=
  {| multisig_address := a; pubkeyJSON := "null" |}.

(** Bob's identity, as stored after [getKey] hands out [bobKey]. *)
Definition bobInfo : WalletInfo :=
  {| address := "osmo1bob"; pubKey := toBase64 (key_pubKey Samples.bobKey) |}.

End Scenarios.

(* ================================================================== *)
(** ** Reading back what was written *)

Module RoundTrip.

(** The text of one member of an object of strings. *)
Definition member_text (kv : string * string) : string :=
  JSON_stringify_string (fst kv) ++ ":" ++ JSON_stringify_string (snd kv).

(** What follows the first member: the other members, each after a
    comma, then the closing brace. *)
Fixpoint more_text (ps : list (string * string)) : string :=
  match ps with
  | [] => "}"
  | p :: ps' => "," ++ member_text p ++ more_text ps'
  end.

(** The member [JSON.parse] reads from that text. *)
Definition member_json (kv : string * string) : list N * json :=
  (units_of (fst kv), JString (units_of (snd kv))).

(** The values a base64 digit stands for. *)
Definition sextets : list N := map N.of_nat (seq 0 64).

End RoundTrip.
Export RoundTrip.

(* ================================================================== *)
(** * Properties *)

Local Open Scope list_scope.

Ltac task_unfold :=
  unfold connectWallet, fetchMultisigs, fetchAttempt, fetchFailed, getSignature,
    onCheckedChange, bind, try_catch, try_finally, await, emit, setState, ret, throw.

(** Case analysis on the settlement of the next awaited call. *)
Ltac next_call :=
  match goal with
  | |- context [match ?o with Fulfilled _ => _ | Rejected _ => _ | Pending => _ end] =>
      destruct o eqn:?
  | |- context [let (_, _) := (?o, _) in _] => destruct o eqn:?
  | |- context [match ?o with Some _ => _ | None => _ end] => destruct o eqn:?
  end.

(** ** Sanity checks of the encoders and of the parser *)

Example toBase64_Man : toBase64 (Buffer_from "Man") = "TWFu".
Proof. reflexivity. Qed.

Example toBase64_padding : toBase64 (Buffer_from "light w") = "bGlnaHQgdw==".
Proof. reflexivity. Qed.

Example Buffer_from_latin1 : Buffer_from (String "233"%char "") = [xc3; xa9].
Proof. reflexivity. Qed.

Example JSON_parse_good :
  JSON_parse Samples.goodPubkeyJSON =
  Value (JObject [(units_of "value",
           JObject [(units_of "threshold", JString [50%N]);
                    (units_of "pubkeys", JArray [JNumber "1"; JNumber "2"; JNumber "3"])])]).
Proof. reflexivity. Qed.

Example JSON_parse_open_brace : JSON_parse "{" = Throw SyntaxError.
Proof. reflexivity. Qed.

Example JSON_parse_leading_zero : JSON_parse "01" = Throw SyntaxError.
Proof. reflexivity. Qed.

Example JSON_parse_nested : JSON_parse " [ [ ] , [ null ] ] " = Value (JArray [JArray []; JArray [JNull]]).
Proof. reflexivity. Qed.

(** ** The parser never runs out of fuel *)

Lemma skip_ws_length s : String.length (skip_ws s) <= String.length s.
Proof.
  induction s as [|c s IH]; simpl; [ lia | ].
  destruct (is_ws c); simpl; lia.
Qed.

Lemma strip_prefix_length p s r :
  strip_prefix p s = Some r -> String.length r <= String.length s.
Proof.
  revert s. induction p as [|a p IH]; intros [|b s]; simpl; intros H;
    try discriminate; try (inversion H; subst; simpl; lia).
  destruct (Ascii.eqb a b); [ | discriminate ].
  apply IH in H. lia.
Qed.

Lemma span_digits_length s :
  String.length (snd (span_digits s)) <= String.length s.
Proof.
  induction s as [|c s IH]; simpl; [ lia | ].
  destruct (is_digit c); simpl; [ | lia ].
  destruct (span_digits s); simpl in *. lia.
Qed.

Lemma parse_chars_length_bounded n : forall s us r,
  String.length s <= n ->
  parse_chars s = Some (us, r) -> String.length r <= String.length s.
Proof.
  induction n as [|n IH]; intros s us r Hn.
  - destruct s; simpl in *; [ discriminate | lia ].
  - destruct s as [|c s]; simpl; [ discriminate | ].
    simpl in Hn.
    destruct (Ascii.eqb c quote); [ intros H; inversion H; subst; lia | ].
    assert (Hcons : forall k t, String.length t <= String.length s ->
              cons_unit k (parse_chars t) = Some (us, r) ->
              String.length r <= S (String.length s)).
    { intros k t Ht H. unfold cons_unit in H.
      destruct (parse_chars t) as [[us' r']|] eqn:E; [ | discriminate ].
      inversion H; subst. apply IH in E; lia. }
    destruct (Ascii.eqb c backslash).
    + destruct s as [|e s1]; [ discriminate | ].
      destruct (simple_escape e).
      * apply Hcons. simpl. lia.
      * destruct (Ascii.eqb e "u"); [ | discriminate ].
        destruct s1 as [|h1 [|h2 [|h3 [|h4 r2]]]]; try discriminate.
        destruct (hex4 h1 h2 h3 h4); [ | discriminate ].
        apply Hcons. simpl. lia.
    + destruct (code c <? 32)%N; [ discriminate | ].
      apply Hcons. lia.
Qed.

Lemma parse_chars_length s us r :
  parse_chars s = Some (us, r) -> String.length r <= String.length s.
Proof. apply (parse_chars_length_bounded (String.length s)). lia. Qed.

Lemma parse_number_length s l r :
  parse_number s = Some (l, r) -> String.length r <= String.length s.
Proof.
  assert (Hexpd : forall pre t l r, parse_exp_digits pre t = Some (l, r) ->
                    String.length r <= String.length t).
  { intros pre t l0 r0. unfold parse_exp_digits.
    pose proof (span_digits_length t) as Hs.
    destruct (span_digits t) as [[|d ds] r']; simpl in *; intros H;
      [ discriminate | inversion H; subst; lia ]. }
  assert (Hexp : forall t l r, parse_exp t = Some (l, r) ->
                   String.length r <= String.length t).
  { intros [|c t] l0 r0; simpl; [ intros H; inversion H; subst; simpl; lia | ].
    destruct (Ascii.eqb c "e" || Ascii.eqb c "E");
      [ | intros H; inversion H; subst; simpl; lia ].
    destruct t as [|sg t']; [ discriminate | ].
    destruct (Ascii.eqb sg "+" || Ascii.eqb sg "-"); intros H; apply Hexpd in H;
      simpl in *; lia. }
  assert (Hfrac : forall t l r, parse_frac t = Some (l, r) ->
                    String.length r <= String.length t).
  { intros [|c t] l0 r0; simpl; [ intros H; inversion H; subst; simpl; lia | ].
    destruct (Ascii.eqb c "."); [ | intros H; inversion H; subst; simpl; lia ].
    pose proof (span_digits_length t) as Hs.
    destruct (span_digits t) as [[|d ds] r']; simpl in *; intros H;
      [ discriminate | inversion H; subst; lia ]. }
  assert (Hint : forall t l r, parse_int t = Some (l, r) ->
                   String.length r <= String.length t).
  { intros [|c t] l0 r0; simpl; [ discriminate | ].
    destruct (Ascii.eqb c "0"); [ intros H; inversion H; subst; lia | ].
    destruct (is_digit c); [ | discriminate ].
    pose proof (span_digits_length t) as Hs.
    destruct (span_digits t) as [ds r']; simpl in *. intros H; inversion H; subst; lia. }
  assert (Huns : forall t l r, parse_unsigned t = Some (l, r) ->
                   String.length r <= String.length t).
  { intros t l0 r0. unfold parse_unsigned.
    destruct (parse_int t) as [[i r1]|] eqn:Ei; [ | discriminate ].
    destruct (parse_frac r1) as [[f r2]|] eqn:Ef; [ | discriminate ].
    destruct (parse_exp r2) as [[e r3]|] eqn:Ee; [ | discriminate ].
    intros H; inversion H; subst.
    apply Hint in Ei. apply Hfrac in Ef. apply Hexp in Ee. lia. }
  destruct s as [|c t]; simpl; [ discriminate | ].
  destruct (Ascii.eqb c "-").
  - destruct (parse_unsigned t) as [[l0 r0]|] eqn:E; [ | discriminate ].
    intros H; inversion H; subst. apply Huns in E. lia.
  - intros H. apply Huns in H. simpl in H. exact H.
Qed.

Ltac split_matches H :=
  repeat match type of H with
         | context [match ?x with _ => _ end] => destruct x eqn:?; try discriminate H
         end.

Ltac length_facts :=
  repeat match goal with
         | E : skip_ws ?s = _ |- _ =>
             let F := fresh "L" in
             pose proof (skip_ws_length s) as F; rewrite E in F; simpl in F;
             revert E
         | E : parse_chars _ = Some _ |- _ => apply parse_chars_length in E; simpl in E
         | E : parse_number _ = Some _ |- _ => apply parse_number_length in E; simpl in E
         | E : strip_prefix _ _ = Some _ |- _ => apply strip_prefix_length in E; simpl in E
         end; intros.

(** What is left after a value, a member or a tail is no longer than
    what was given. *)
Lemma parse_lengths fuel :
  (forall s v r, parse_value fuel s = Some (v, r) -> String.length r <= String.length s)
  /\ (forall s vs r, parse_more_elements fuel s = Some (vs, r) ->
                     String.length r <= String.length s)
  /\ (forall s m r, parse_member fuel s = Some (m, r) -> String.length r <= String.length s)
  /\ (forall s ms r, parse_more_members fuel s = Some (ms, r) ->
                     String.length r <= String.length s).
Proof.
  induction fuel as [|fuel (IHv & IHe & IHm & IHms)].
  - repeat split; intros; discriminate.
  - repeat split; intros s x r H;
      cbn [parse_value parse_more_elements parse_member parse_more_members] in H;
      split_matches H;
      inversion H; subst; clear H;
      repeat match goal with
             | E : parse_value fuel _ = Some _ |- _ => apply IHv in E
             | E : parse_more_elements fuel _ = Some _ |- _ => apply IHe in E
             | E : parse_member fuel _ = Some _ |- _ => apply IHm in E
             | E : parse_more_members fuel _ = Some _ |- _ => apply IHms in E
             end;
      length_facts; simpl in *; lia.
Qed.

Ltac parser_facts :=
  repeat match goal with
         | E : parse_value ?f _ = Some _ |- _ =>
             apply (proj1 (parse_lengths f)) in E
         | E : parse_more_elements ?f _ = Some _ |- _ =>
             apply (proj1 (proj2 (parse_lengths f))) in E
         | E : parse_member ?f _ = Some _ |- _ =>
             apply (proj1 (proj2 (proj2 (parse_lengths f)))) in E
         | E : parse_more_members ?f _ = Some _ |- _ =>
             apply (proj2 (proj2 (proj2 (parse_lengths f)))) in E
         end;
  length_facts; simpl in *.

(** Above the length of the input the fuel does not matter. *)
Lemma parse_fuel fuel : forall fuel',
  (forall s, String.length s < fuel -> String.length s < fuel' ->
             parse_value fuel s = parse_value fuel' s)
  /\ (forall s, String.length s < fuel -> String.length s < fuel' ->
                parse_more_elements fuel s = parse_more_elements fuel' s)
  /\ (forall s, String.length s < fuel -> String.length s < fuel' ->
                parse_member fuel s = parse_member fuel' s)
  /\ (forall s, String.length s < fuel -> String.length s < fuel' ->
                parse_more_members fuel s = parse_more_members fuel' s).
Proof.
  induction fuel as [|fuel IH]; intros fuel'.
  - repeat split; intros; lia.
  - destruct fuel' as [|fuel']; [ repeat split; intros; lia | ].
    destruct (IH fuel') as (IHv & IHe & IHm & IHms).
    repeat split; intros s H1 H2;
      cbn [parse_value parse_more_elements parse_member parse_more_members];
      repeat first
        [ reflexivity
        | match goal with
          | |- context [parse_value fuel ?r] =>
              rewrite (IHv r) by (parser_facts; lia)
          | |- context [parse_more_elements fuel ?r] =>
              rewrite (IHe r) by (parser_facts; lia)
          | |- context [parse_member fuel ?r] =>
              rewrite (IHm r) by (parser_facts; lia)
          | |- context [parse_more_members fuel ?r] =>
              rewrite (IHms r) by (parser_facts; lia)
          end
        | match goal with
          | |- match ?x with _ => _ end = _ => destruct x eqn:?
          end ].
Qed.

(** More fuel than [JSON_parse] gives changes nothing. *)
Lemma parse_value_fuel text fuel :
  String.length text < fuel ->
  parse_value fuel text = parse_value (S (String.length text)) text.
Proof.
  intros H. apply (proj1 (parse_fuel fuel (S (String.length text)))); lia.
Qed.

(** ** What [getSignature] and the [try] block of [fetchMultisigs] do *)

(** [getSignature] writes no state cell. *)
Lemma getSignature_ui w chain a r :
  ui (snd (getSignature w chain a r)) = ui r.
Proof.
  task_unfold. simpl.
  repeat (next_call; simpl; try reflexivity).
Qed.

(** Its settlement does not depend on the state it is started in. *)
Lemma getSignature_settlement w chain a r r' :
  fst (getSignature w chain a r) = fst (getSignature w chain a r').
Proof.
  task_unfold. simpl.
  repeat (next_call; simpl; try reflexivity).
Qed.

(** It only appends to the log. *)
Lemma getSignature_log w chain a r :
  exists l, log (snd (getSignature w chain a r)) = log r ++ l
            /\ l = log (snd (getSignature w chain a (start (ui r)))).
Proof.
  task_unfold. simpl.
  repeat (next_call; simpl);
    eexists; (split; [ | reflexivity ]); simpl;
    repeat rewrite <- app_assoc; reflexivity.
Qed.

Arguments nonceUrl : simpl never.
Arguments listUrl : simpl never.
Arguments listBody : simpl never.
Arguments loginSignDoc : simpl never.
Arguments challengeData : simpl never.

Ltac flatten_log := repeat rewrite <- app_assoc; simpl.

(** A failure at any step leaves the [try] block with that exception,
    the state cells untouched. *)
Lemma fetchAttempt_failure w chain a e r :
  FetchFailure w chain a e ->
  exists l, fetchAttempt w chain a r = (Rejected e, {| ui := ui r; log := log r ++ l |}).
Proof.
  intros F. task_unfold.
  destruct F;
    repeat match goal with
           | H : _ = _ |- _ => rewrite H; clear H
           end;
    simpl; eexists; flatten_log; reflexivity.
Qed.

(** Conversely the [try] block is left by an exception only through one
    of these steps. *)
Lemma fetchAttempt_rejected w chain a e r r' :
  fetchAttempt w chain a r = (Rejected e, r') ->
  FetchFailure w chain a e.
Proof.
  task_unfold.
  destruct (StargateClient_connect w (nodeAddress chain)) as [[]| |] eqn:Hc;
    simpl; try (intros H; inversion H; subst; now constructor).
  destruct (client_getAccount w a) as [[account|]| |] eqn:Ha;
    simpl; try (intros H; inversion H; subst;
                first [ now apply LookupFailed | now apply AccountMissing ]).
  destruct (requestJson_nonce w (nonceUrl chain (account_address account))) as [n| |] eqn:Hn;
    simpl; try (intros H; inversion H; subst; now eapply NonceFailed; eauto).
  destruct (keplr_signAmino w (chainId chain) (account_address account)
              (loginSignDoc chain (account_address account) (nonce n))) as [resp| |] eqn:Hs;
    simpl; try (intros H; inversion H; subst; now eapply SigningFailed; eauto).
  destruct (requestJson_list w (listUrl chain) (listBody chain (signature resp))) as [m| |] eqn:Hl;
    simpl; intros H; inversion H; subst.
  eapply ListFailed; eauto.
Qed.

(** When the [try] block fails, [fetchMultisigs] itself is fulfilled:
    its [catch] block logs and toasts the exception and writes no state
    cell. *)
Lemma fetchMultisigs_failure w chain a e r :
  FetchFailure w chain a e ->
  exists l,
    fetchMultisigs w chain a r =
    (Fulfilled tt,
     {| ui := ui r;
        log := log r ++ l ++ [ConsoleError "Failed to fetch multisigs:" e;
                              ToastError "Failed to fetch multisigs" (fullError e)] |}).
Proof.
  intros F. destruct (fetchAttempt_failure w chain a e r F) as [l Hl].
  exists l. unfold fetchMultisigs, try_catch. rewrite Hl.
  unfold fetchFailed, bind, emit, await. simpl.
  flatten_log. reflexivity.
Qed.

(** [fetchMultisigs] never rejects and never touches a cell other than
    [multisigs]. *)
Lemma fetchMultisigs_frame w chain a r :
  let res := fetchMultisigs w chain a r in
  (forall e, fst res <> Rejected e)
  /\ loading (ui (snd res)) = loading (ui r)
  /\ walletInfo (ui (snd res)) = walletInfo (ui r)
  /\ showBelonged (ui (snd res)) = showBelonged (ui r).
Proof.
  task_unfold. simpl.
  repeat (next_call; simpl); repeat split; try reflexivity; intros ? ?; discriminate.
Qed.

(** The run of [connectWallet] once the agent has been enabled and has
    handed out a key, in terms of the run of [fetchMultisigs]. *)
Lemma connectWallet_after_key w chain key r :
  keplr_enable w (chainId chain) = Fulfilled tt ->
  keplr_getKey w (chainId chain) = Fulfilled key ->
  let identity := {| address := bech32Address key; pubKey := toBase64 (key_pubKey key) |} in
  let r1 :=
    {| ui := setWalletInfo (Some identity) (setLoading true (ui r));
       log := log r ++ [KeplrEnable (chainId chain);
                        KeplrDefaultOptions {| preferNoSetFee := true;
                                               preferNoSetMemo := true;
                                               disableBalanceCheck := true |};
                        KeplrGetKey (chainId chain)] |} in
  connectWallet w chain r =
  match fetchMultisigs w chain (bech32Address key) r1 with
  | (Fulfilled u, r2) => (Fulfilled u, {| ui := setLoading false (ui r2); log := log r2 |})
  | (Rejected e, r2) =>
      (Fulfilled tt,
       {| ui := setLoading false (ui r2);
          log := log r2 ++ [ConsoleError (getConnectError w e) e;
                            ToastError (getConnectError w e) (fullError e)] |})
  | (Pending, r2) => (Pending, r2)
  end.
Proof.
  intros He Hk. simpl.
  unfold connectWallet, try_finally, try_catch, bind, await, emit, setState. simpl.
  rewrite He, Hk. simpl. flatten_log.
  destruct (fetchMultisigs w chain (bech32Address key) _) as [[u|e|] r2]; simpl;
    flatten_log; reflexivity.
Qed.

(** ** The signing step *)

(** C6: In every invocation of [getSignature] whose nonce request is
    rejected (the node connection and the account lookup having
    answered), the invocation is rejected with the very exception of the
    nonce request, and the calls it made are the connection, the lookup
    and the nonce request: no signature was requested from the agent. *)
Theorem nonce_failure_stops_before_signing w chain address r account e :
  StargateClient_connect w (nodeAddress chain) = Fulfilled tt ->
  client_getAccount w address = Fulfilled (Some account) ->
  requestJson_nonce w (nonceUrl chain (account_address account)) = Rejected e ->
  exists made,
    getSignature w chain address r = (Rejected e, {| ui := ui r; log := log r ++ made |})
    /\ made = [Connect (nodeAddress chain); GetAccount address;
               RequestJson (nonceUrl chain (account_address account)) None]
    /\ existsb is_sign_request made = false.
Proof.
  intros Hc Ha Hn. eexists. split; [ | split; [ reflexivity | reflexivity ] ].
  task_unfold. rewrite Hc, Ha. simpl. rewrite Hn. simpl.
  flatten_log. reflexivity.
Qed.

Lemma nonce_failure_stops_before_signing_witness :
  StargateClient_connect Samples.nonceDown (nodeAddress Samples.cosmoshub) = Fulfilled tt
  /\ client_getAccount Samples.nonceDown "cosmos1alice"
     = Fulfilled (Some {| account_address := "cosmos1alice" |})
  /\ requestJson_nonce Samples.nonceDown (nonceUrl Samples.cosmoshub "cosmos1alice")
     = Rejected (Error "500 Internal Server Error")
  /\ exists made,
       getSignature Samples.nonceDown Samples.cosmoshub "cosmos1alice" (start initialState)
       = (Rejected (Error "500 Internal Server Error"),
          {| ui := initialState; log := [] ++ made |})
       /\ made = [Connect "https://rpc.cosmos.network"; GetAccount "cosmos1alice";
                  RequestJson "/api/chain/cosmoshub-4/nonce/cosmos1alice" None]
       /\ existsb is_sign_request made = false.
Proof.
  split; [ reflexivity | split; [ reflexivity | split; [ reflexivity | ] ] ].
  exact (nonce_failure_stops_before_signing Samples.nonceDown Samples.cosmoshub
           "cosmos1alice" (start initialState) {| account_address := "cosmos1alice" |}
           (Error "500 Internal Server Error") eq_refl eq_refl eq_refl).
Defined.

(** ** Failures inside the fetch flow *)

(** C10: In every invocation of [fetchMultisigs] whose [try] block
    fails at some step (node connection, account lookup, nonce request,
    signature request or list request), the invocation is fulfilled, the
    [multisigs] cell keeps the value it had, and the last two calls made
    are the console report and the toast of that failure. *)
Theorem fetch_error_keeps_multisigs w chain address r e :
  FetchFailure w chain address e ->
  fst (fetchMultisigs w chain address r) = Fulfilled tt
  /\ multisigs (ui (snd (fetchMultisigs w chain address r))) = multisigs (ui r)
  /\ exists before,
       log (snd (fetchMultisigs w chain address r)) =
       log r ++ before ++ [ConsoleError "Failed to fetch multisigs:" e;
                           ToastError "Failed to fetch multisigs" (fullError e)].
Proof.
  intros F. destruct (fetchMultisigs_failure w chain address e r F) as [l Hl].
  rewrite Hl. simpl. repeat split. exists l. reflexivity.
Qed.

Lemma listDown_failure :
  FetchFailure Samples.listDown Samples.cosmoshub "cosmos1alice" (Error "401 Unauthorized").
Proof.
  eapply (ListFailed _ _ _ {| account_address := "cosmos1alice" |} {| nonce := "7" |});
    reflexivity.
Defined.

Lemma fetch_error_keeps_multisigs_witness :
  FetchFailure Samples.listDown Samples.cosmoshub "cosmos1alice" (Error "401 Unauthorized")
  /\ fst (fetchMultisigs Samples.listDown Samples.cosmoshub "cosmos1alice"
            (start (Samples.holding false Samples.twoAndFive))) = Fulfilled tt
  /\ multisigs (ui (snd (fetchMultisigs Samples.listDown Samples.cosmoshub "cosmos1alice"
                           (start (Samples.holding false Samples.twoAndFive)))))
     = Some Samples.twoAndFive
  /\ exists before,
       log (snd (fetchMultisigs Samples.listDown Samples.cosmoshub "cosmos1alice"
                   (start (Samples.holding false Samples.twoAndFive)))) =
       [] ++ before ++ [ConsoleError "Failed to fetch multisigs:" (Error "401 Unauthorized");
                        ToastError "Failed to fetch multisigs"
                          (fullError (Error "401 Unauthorized"))].
Proof.
  split; [ exact listDown_failure | ].
  exact (fetch_error_keeps_multisigs Samples.listDown Samples.cosmoshub "cosmos1alice"
           (start (Samples.holding false Samples.twoAndFive)) (Error "401 Unauthorized")
           listDown_failure).
Defined.

(** ** The connect flow *)

(** A failure inside the fetch flow, seen from [connectWallet]. *)
Lemma connectWallet_fetch_failure w chain key r e :
  keplr_enable w (chainId chain) = Fulfilled tt ->
  keplr_getKey w (chainId chain) = Fulfilled key ->
  FetchFailure w chain (bech32Address key) e ->
  exists made,
    connectWallet w chain r =
    (Fulfilled tt,
     {| ui := {| loading := false;
                 walletInfo := Some {| address := bech32Address key;
                                       pubKey := toBase64 (key_pubKey key) |};
                 showBelonged := showBelonged (ui r);
                 multisigs := multisigs (ui r) |};
        log := log r
               ++ [KeplrEnable (chainId chain);
                   KeplrDefaultOptions {| preferNoSetFee := true;
                                          preferNoSetMemo := true;
                                          disableBalanceCheck := true |};
                   KeplrGetKey (chainId chain)]
               ++ made
               ++ [ConsoleError "Failed to fetch multisigs:" e;
                   ToastError "Failed to fetch multisigs" (fullError e)] |}).
Proof.
  intros He Hk F.
  rewrite (connectWallet_after_key w chain key r He Hk).
  match goal with
  | |- context [fetchMultisigs w chain ?a ?r1] =>
      destruct (fetchMultisigs_failure w chain a e r1 F) as [l Hl]
  end.
  exists l. rewrite Hl. simpl. flatten_log. reflexivity.
Qed.

(** C3: In every connect attempt in which the agent has handed out a
    key (so the identity was stored) and the fetch flow then fails at
    the signing step or at the list request, the identity stored is
    still there when the attempt ends, and the failure was toasted. *)
Theorem identity_retained_on_fetch_failure w chain r key e :
  keplr_enable w (chainId chain) = Fulfilled tt ->
  keplr_getKey w (chainId chain) = Fulfilled key ->
  FetchFailure w chain (bech32Address key) e ->
  fst (connectWallet w chain r) = Fulfilled tt
  /\ walletInfo (ui (snd (connectWallet w chain r))) =
     Some {| address := bech32Address key; pubKey := toBase64 (key_pubKey key) |}
  /\ In (ToastError "Failed to fetch multisigs" (fullError e))
        (log (snd (connectWallet w chain r))).
Proof.
  intros He Hk F.
  destruct (connectWallet_fetch_failure w chain key r e He Hk F) as [made Hrun].
  rewrite Hrun. simpl. repeat split.
  repeat (rewrite in_app_iff; simpl). tauto.
Qed.

Lemma identity_retained_on_fetch_failure_witness :
  keplr_enable Samples.listDown (chainId Samples.cosmoshub) = Fulfilled tt
  /\ keplr_getKey Samples.listDown (chainId Samples.cosmoshub) = Fulfilled Samples.aliceKey
  /\ FetchFailure Samples.listDown Samples.cosmoshub "cosmos1alice" (Error "401 Unauthorized")
  /\ fst (connectWallet Samples.listDown Samples.cosmoshub (start initialState)) = Fulfilled tt
  /\ walletInfo (ui (snd (connectWallet Samples.listDown Samples.cosmoshub (start initialState))))
     = Some {| address := "cosmos1alice"; pubKey := toBase64 (key_pubKey Samples.aliceKey) |}
  /\ In (ToastError "Failed to fetch multisigs" (fullError (Error "401 Unauthorized")))
        (log (snd (connectWallet Samples.listDown Samples.cosmoshub (start initialState)))).
Proof.
  split; [ reflexivity | split; [ reflexivity | split; [ exact listDown_failure | ] ] ].
  exact (identity_retained_on_fetch_failure Samples.listDown Samples.cosmoshub
           (start initialState) Samples.aliceKey (Error "401 Unauthorized")
           eq_refl eq_refl listDown_failure).
Defined.

(** C2, as the specification states it, at a concrete input: the agent
    hands out Alice's key and the node knows no such account.  The
    signing step is rejected with the account-not-found error, yet the
    identity cell, null before the attempt, holds Alice's identity when
    the attempt ends. *)
Lemma unknown_account_identity_is_stored :
  client_getAccount Samples.unknownAccount (bech32Address Samples.aliceKey) = Fulfilled None
  /\ fst (getSignature Samples.unknownAccount Samples.cosmoshub "cosmos1alice"
            (start initialState))
     = Rejected (Error "Account not found on chain for cosmos1alice")
  /\ walletInfo initialState = None
  /\ walletInfo (ui (snd (connectWallet Samples.unknownAccount Samples.cosmoshub
                            (start initialState))))
     = Some Samples.aliceInfo
  /\ walletInfo (ui (snd (connectWallet Samples.unknownAccount Samples.cosmoshub
                            (start initialState))))
     <> None.
Proof.
  repeat split; try reflexivity.
  vm_compute. discriminate.
Qed.

(** C2, amended: In every connect attempt in which the account lookup
    answers that there is no account (agent, key and node connection
    having answered), the signing step is rejected with
    [Error "Account not found on chain for <address>"]; [fetchMultisigs]
    catches it and reports it on the console and in a toast;
    [connectWallet] is fulfilled with [loading] false, [multisigs] and
    [showBelonged] as they were, and the identity cell holding the
    identity obtained from the agent. *)
Theorem unknown_account_attempt w chain st key :
  keplr_enable w (chainId chain) = Fulfilled tt ->
  keplr_getKey w (chainId chain) = Fulfilled key ->
  StargateClient_connect w (nodeAddress chain) = Fulfilled tt ->
  client_getAccount w (bech32Address key) = Fulfilled None ->
  let notFound := Error ("Account not found on chain for " ++ bech32Address key)%string in
  (forall r, fst (getSignature w chain (bech32Address key) r) = Rejected notFound)
  /\ connectWallet w chain (start st) =
     (Fulfilled tt,
      {| ui := {| loading := false;
                  walletInfo := Some {| address := bech32Address key;
                                        pubKey := toBase64 (key_pubKey key) |};
                  showBelonged := showBelonged st;
                  multisigs := multisigs st |};
         log := [KeplrEnable (chainId chain);
                 KeplrDefaultOptions {| preferNoSetFee := true;
                                        preferNoSetMemo := true;
                                        disableBalanceCheck := true |};
                 KeplrGetKey (chainId chain);
                 Connect (nodeAddress chain);
                 GetAccount (bech32Address key);
                 ConsoleError "Failed to fetch multisigs:" notFound;
                 ToastError "Failed to fetch multisigs" (Some notFound)] |}).
Proof.
  intros He Hk Hc Ha notFound. split.
  - intros r. task_unfold. rewrite Hc, Ha. reflexivity.
  - task_unfold. simpl. rewrite He, Hk. simpl. rewrite Hc, Ha. reflexivity.
Qed.

Lemma unknown_account_attempt_witness :
  keplr_enable Samples.unknownAccount (chainId Samples.cosmoshub) = Fulfilled tt
  /\ keplr_getKey Samples.unknownAccount (chainId Samples.cosmoshub)
     = Fulfilled Samples.aliceKey
  /\ StargateClient_connect Samples.unknownAccount (nodeAddress Samples.cosmoshub)
     = Fulfilled tt
  /\ client_getAccount Samples.unknownAccount (bech32Address Samples.aliceKey)
     = Fulfilled None
  /\ (forall r, fst (getSignature Samples.unknownAccount Samples.cosmoshub "cosmos1alice" r)
                = Rejected (Error "Account not found on chain for cosmos1alice"))
  /\ connectWallet Samples.unknownAccount Samples.cosmoshub (start initialState) =
     (Fulfilled tt,
      {| ui := {| loading := false; walletInfo := Some Samples.aliceInfo;
                  showBelonged := false; multisigs := None |};
         log := [KeplrEnable "cosmoshub-4";
                 KeplrDefaultOptions {| preferNoSetFee := true;
                                        preferNoSetMemo := true;
                                        disableBalanceCheck := true |};
                 KeplrGetKey "cosmoshub-4";
                 Connect "https://rpc.cosmos.network";
                 GetAccount "cosmos1alice";
                 ConsoleError "Failed to fetch multisigs:"
                   (Error "Account not found on chain for cosmos1alice");
                 ToastError "Failed to fetch multisigs"
                   (Some (Error "Account not found on chain for cosmos1alice"))] |}).
Proof.
  do 4 (split; [ reflexivity | ]).
  exact (unknown_account_attempt Samples.unknownAccount Samples.cosmoshub
           initialState Samples.aliceKey eq_refl eq_refl eq_refl eq_refl).
Defined.

(** What is on screen after that attempt: the identity is held and no
    result is, so the view shows the caption for a list being loaded,
    and no button to verify again. *)
Example view_after_unknown_account :
  render Samples.cosmoshub
    (ui (snd (connectWallet Samples.unknownAccount Samples.cosmoshub (start initialState))))
  = Value {| verifyButton := None; loadingMultisigs := true;
             noneCreatedText := false; notMemberText := false; listSection := None |}.
Proof. reflexivity. Qed.

(** C9: Every invocation of [connectWallet] that settles, whatever
    answered or failed on the way, ends with the [loading] cell false. *)
Theorem loading_cleared_when_connect_settles w chain r :
  settled (fst (connectWallet w chain r)) = true ->
  loading (ui (snd (connectWallet w chain r))) = false.
Proof.
  task_unfold. simpl.
  repeat (next_call; simpl; try reflexivity; try discriminate).
Qed.

Lemma loading_cleared_when_connect_settles_witness :
  settled (fst (connectWallet Samples.nonceDown Samples.cosmoshub
                  (start (setLoading true initialState)))) = true
  /\ loading (ui (snd (connectWallet Samples.nonceDown Samples.cosmoshub
                         (start (setLoading true initialState))))) = false.
Proof.
  split; [ reflexivity | ].
  exact (loading_cleared_when_connect_settles Samples.nonceDown Samples.cosmoshub
           (start (setLoading true initialState)) eq_refl).
Defined.

(** [connectWallet] is never rejected: every exception is caught. *)
Lemma connectWallet_never_rejects w chain r e :
  fst (connectWallet w chain r) <> Rejected e.
Proof.
  task_unfold. simpl.
  repeat (next_call; simpl; try discriminate).
Qed.

(** While an awaited call has not settled the flag stays raised. *)
Lemma loading_raised_while_pending w chain r :
  fst (connectWallet w chain r) = Pending ->
  loading (ui (snd (connectWallet w chain r))) = true.
Proof.
  task_unfold. simpl.
  repeat (next_call; simpl; try reflexivity; try discriminate).
Qed.

(** ** The login challenge *)

(** Whatever [getSignature] asks the agent to sign is the login document
    for the resolved account and the nonce the backend issued. *)
Lemma getSignature_sign_request w chain a st c s d :
  In (KeplrSignAmino c s d) (log (snd (getSignature w chain a (start st)))) ->
  exists account n,
    client_getAccount w a = Fulfilled (Some account)
    /\ s = account_address account
    /\ requestJson_nonce w (nonceUrl chain s) = Fulfilled n
    /\ c = chainId chain
    /\ d = loginSignDoc chain s (nonce n).
Proof.
  task_unfold. simpl.
  destruct (StargateClient_connect w (nodeAddress chain)) as [[]| |]; simpl;
    try (intros [H|[]]; discriminate).
  destruct (client_getAccount w a) as [[account|]| |] eqn:Ha; simpl;
    try (intros [H|[H|[]]]; discriminate).
  destruct (requestJson_nonce w (nonceUrl chain (account_address account))) as [n| |] eqn:Hn;
    simpl; try (intros [H|[H|[H|[]]]]; discriminate).
  intros Hin. exists account, n.
  assert (Hev : KeplrSignAmino (chainId chain) (account_address account)
                  (loginSignDoc chain (account_address account) (nonce n))
                = KeplrSignAmino c s d).
  { destruct (keplr_signAmino w (chainId chain) (account_address account)
                (loginSignDoc chain (account_address account) (nonce n)));
      simpl in Hin; destruct Hin as [H|[H|[H|[H|[]]]]]; try discriminate; exact H. }
  inversion Hev; subst. repeat split; assumption.
Qed.

(** C5: For every two invocations of [getSignature], on whatever
    chains, addresses, collaborators and states, that reach the agent
    with the same chain display name and the same issued nonce, the
    payloads handed to the agent for signing are the same string: the
    challenge built from that display name and that nonce. *)
Theorem challenge_bytes_deterministic
  w1 w2 chain1 chain2 a1 a2 st1 st2 c1 c2 s1 s2 d1 d2 n1 n2 :
  In (KeplrSignAmino c1 s1 d1) (log (snd (getSignature w1 chain1 a1 (start st1)))) ->
  In (KeplrSignAmino c2 s2 d2) (log (snd (getSignature w2 chain2 a2 (start st2)))) ->
  requestJson_nonce w1 (nonceUrl chain1 s1) = Fulfilled n1 ->
  requestJson_nonce w2 (nonceUrl chain2 s2) = Fulfilled n2 ->
  chainDisplayName chain1 = chainDisplayName chain2 ->
  nonce n1 = nonce n2 ->
  payload d1 = payload d2
  /\ payload d1 = [challengeData (chainDisplayName chain1) (nonce n1)].
Proof.
  intros H1 H2 Hn1 Hn2 Hname Hnonce.
  apply getSignature_sign_request in H1. destruct H1 as (acc1 & m1 & _ & _ & Hm1 & _ & Hd1).
  apply getSignature_sign_request in H2. destruct H2 as (acc2 & m2 & _ & _ & Hm2 & _ & Hd2).
  rewrite Hn1 in Hm1. inversion Hm1; subst m1.
  rewrite Hn2 in Hm2. inversion Hm2; subst m2.
  subst d1 d2. unfold payload, loginSignDoc. simpl.
  rewrite Hname, Hnonce. split; reflexivity.
Qed.

Lemma challenge_bytes_deterministic_witness :
  In (KeplrSignAmino "cosmoshub-4" "cosmos1alice"
        (loginSignDoc Samples.cosmoshub "cosmos1alice" "7"))
     (log (snd (getSignature (Samples.answering Samples.aliceKey Samples.twoAndFive)
                  Samples.cosmoshub "cosmos1alice" (start initialState))))
  /\ In (KeplrSignAmino "osmosis-1" "osmo1bob"
           (loginSignDoc Samples.otherhub "osmo1bob" "7"))
        (log (snd (getSignature (Samples.answering Samples.bobKey Samples.oneMalformed)
                     Samples.otherhub "osmo1bob"
                     (start (Samples.holding true Samples.twoAndFive)))))
  /\ requestJson_nonce (Samples.answering Samples.aliceKey Samples.twoAndFive)
       (nonceUrl Samples.cosmoshub "cosmos1alice") = Fulfilled {| nonce := "7" |}
  /\ requestJson_nonce (Samples.answering Samples.bobKey Samples.oneMalformed)
       (nonceUrl Samples.otherhub "osmo1bob") = Fulfilled {| nonce := "7" |}
  /\ chainDisplayName Samples.cosmoshub = chainDisplayName Samples.otherhub
  /\ payload (loginSignDoc Samples.cosmoshub "cosmos1alice" "7")
     = payload (loginSignDoc Samples.otherhub "osmo1bob" "7")
  /\ payload (loginSignDoc Samples.cosmoshub "cosmos1alice" "7")
     = [challengeData "Cosmos Hub" "7"].
Proof.
  assert (H1 : In (KeplrSignAmino "cosmoshub-4" "cosmos1alice"
                     (loginSignDoc Samples.cosmoshub "cosmos1alice" "7"))
                  (log (snd (getSignature
                               (Samples.answering Samples.aliceKey Samples.twoAndFive)
                               Samples.cosmoshub "cosmos1alice" (start initialState)))))
    by (simpl; auto 10).
  assert (H2 : In (KeplrSignAmino "osmosis-1" "osmo1bob"
                     (loginSignDoc Samples.otherhub "osmo1bob" "7"))
                  (log (snd (getSignature
                               (Samples.answering Samples.bobKey Samples.oneMalformed)
                               Samples.otherhub "osmo1bob"
                               (start (Samples.holding true Samples.twoAndFive))))))
    by (simpl; auto 10).
  split; [ exact H1 | split; [ exact H2 | ] ].
  do 3 (split; [ reflexivity | ]).
  exact (challenge_bytes_deterministic _ _ _ _ _ _ _ _ _ _ _ _ _ _
           {| nonce := "7" |} {| nonce := "7" |} H1 H2 eq_refl eq_refl eq_refl eq_refl).
Defined.

(** Distinct nonces give distinct payloads on the same chain: an
    example, so that the payload is seen to depend on the nonce. *)
Example challenge_depends_on_nonce :
  challengeData "Cosmos Hub" "7" <> challengeData "Cosmos Hub" "8".
Proof. vm_compute. discriminate. Qed.

Example challenge_cosmoshub_7 :
  challengeData "Cosmos Hub" "7" =
  "eyJ0aXRsZSI6IktlcGxyIExvZ2luIHRvIENvc21vcyBIdWIiLCJkZXNjcmlwdGlvbiI6IlNpZ24gdGhpcyBubyBmZWUgdHJhbnNhY3Rpb24gdG8gbG9naW4gd2l0aCB5b3VyIEtlcGxyIHdhbGxldCIsIm5vbmNlIjoiNyJ9".
Proof. reflexivity. Qed.

(** ** Rendering a held result *)

Lemma map_result_throws {A B} (f : A -> result B) (l : list A) x e :
  In x l -> f x = Throw e -> exists e', map_result f l = Throw e'.
Proof.
  induction l as [|y l IH]; simpl; [ tauto | ].
  intros [->|Hin] Hf.
  - rewrite Hf. simpl. eauto.
  - destruct (f y); simpl; [ | eauto ].
    destruct (IH Hin Hf) as [e' ->]. simpl. eauto.
Qed.

Lemma map_result_value {A B} (f : A -> result B) (l : list A) ys :
  map_result f l = Value ys -> Forall2 (fun x y => f x = Value y) l ys.
Proof.
  revert ys. induction l as [|x l IH]; simpl; intros ys H.
  - inversion H. constructor.
  - destruct (f x) eqn:Hx; simpl in H; [ | discriminate ].
    destruct (map_result f l) eqn:Hl; simpl in H; [ | discriminate ].
    inversion H; subst. constructor; auto.
Qed.

Lemma map_result_all {A B} (f : A -> result B) (l : list A) :
  Forall (fun x => exists y, f x = Value y) l -> exists ys, map_result f l = Value ys.
Proof.
  induction 1 as [|x l [y Hy] _ [ys Hys]]; simpl; [ eauto | ].
  rewrite Hy, Hys. simpl. eauto.
Qed.

(** A row takes its key from the entry it renders. *)
Lemma renderRow_key chain x row :
  renderRow chain x = Value row -> row_key row = multisig_address x.
Proof.
  unfold renderRow, and_then.
  repeat match goal with
         | |- context [match ?t with Value _ => _ | Throw _ => _ end] => destruct t
         end; intros H; inversion H; reflexivity.
Qed.

Lemma rendered_rows_keys chain l rs :
  map_result (renderRow chain) l = Value rs ->
  map row_key rs = map multisig_address l.
Proof.
  intros H. apply map_result_value in H.
  induction H as [|x r l rs Hx _ IH]; simpl; [ reflexivity | ].
  rewrite IH, (renderRow_key chain x r Hx). reflexivity.
Qed.

(** A row whose [pubkeyJSON] is not JSON ends the render. *)
Lemma renderRow_syntax_error chain x :
  JSON_parse (pubkeyJSON x) = Throw SyntaxError -> renderRow chain x = Throw SyntaxError.
Proof. unfold renderRow. intros ->. reflexivity. Qed.

Lemma displayed_entry_anyMultisig show m x :
  In x (displayedSet show m) -> anyMultisig m = true.
Proof.
  unfold displayedSet, anyMultisig.
  destruct show, (created m), (belonged m); simpl; tauto.
Qed.

Lemma render_throws_on_malformed_row chain st m x :
  multisigs st = Some m ->
  In x (displayedSet (showBelonged st) m) ->
  JSON_parse (pubkeyJSON x) = Throw SyntaxError ->
  exists e, render chain st = Throw e.
Proof.
  intros Hm Hin Hbad. unfold render, renderListSection. rewrite Hm.
  rewrite (displayed_entry_anyMultisig _ _ _ Hin).
  destruct (map_result_throws (renderRow chain) _ x SyntaxError Hin
              (renderRow_syntax_error chain x Hbad)) as [e ->].
  simpl. eauto.
Qed.

(** ** What a successful fetch stores *)

(** C1, as the specification states it, at a concrete input: the list
    endpoint answers with one created row whose [pubkeyJSON] is the text
    of a single opening brace, which is not JSON.  The fetch is
    fulfilled, not rejected; the answer is stored as received, with the
    row in it; no failure is reported. *)
Lemma malformed_row_is_stored :
  In (Samples.badEntry "cosmos1m1") (created Samples.oneMalformed)
  /\ JSON_parse (pubkeyJSON (Samples.badEntry "cosmos1m1")) = Throw SyntaxError
  /\ fst (fetchMultisigs (Samples.answering Samples.aliceKey Samples.oneMalformed)
            Samples.cosmoshub "cosmos1alice" (start initialState)) = Fulfilled tt
  /\ multisigs (ui (snd (fetchMultisigs
                           (Samples.answering Samples.aliceKey Samples.oneMalformed)
                           Samples.cosmoshub "cosmos1alice" (start initialState))))
     = Some Samples.oneMalformed
  /\ existsb (fun ev => match ev with
                        | ToastError _ _ | ConsoleError _ _ => true
                        | _ => false
                        end)
             (log (snd (fetchMultisigs
                          (Samples.answering Samples.aliceKey Samples.oneMalformed)
                          Samples.cosmoshub "cosmos1alice" (start initialState))))
     = false.
Proof.
  repeat split; try reflexivity. simpl. auto.
Qed.

(** C1, amended: Whenever the signing step hands back a signature and
    the list request answers, [fetchMultisigs] is fulfilled and stores
    the answer exactly as received, whatever its rows contain: it parses
    no [pubkeyJSON] and has no malformed-entry failure.  The parsing is
    done by the render, on the rows of the displayed sequence: if one of
    them carries a [pubkeyJSON] that is not JSON the whole render throws
    and shows no row at all. *)
Theorem fetch_stores_result_as_received w chain address r sig m :
  fst (getSignature w chain address r) = Fulfilled sig ->
  requestJson_list w (listUrl chain) (listBody chain sig) = Fulfilled m ->
  fst (fetchMultisigs w chain address r) = Fulfilled tt
  /\ multisigs (ui (snd (fetchMultisigs w chain address r))) = Some m
  /\ forall show entry,
       In entry (displayedSet show m) ->
       JSON_parse (pubkeyJSON entry) = Throw SyntaxError ->
       exists e,
         render chain (setShowBelonged show (ui (snd (fetchMultisigs w chain address r))))
         = Throw e.
Proof.
  intros Hsig Hlist.
  assert (Hrun : fst (fetchMultisigs w chain address r) = Fulfilled tt
                 /\ multisigs (ui (snd (fetchMultisigs w chain address r))) = Some m).
  { unfold fetchMultisigs, try_catch, fetchAttempt, bind, await, setState.
    destruct (getSignature w chain address r) as [[s|e|] r1]; simpl in Hsig;
      inversion Hsig; subst.
    rewrite Hlist. simpl. split; reflexivity. }
  destruct Hrun as [Hf Hm]. repeat split; try assumption.
  intros show entry Hin Hbad.
  apply (render_throws_on_malformed_row chain _ m entry); simpl; assumption.
Qed.

Lemma fetch_stores_result_as_received_witness :
  fst (getSignature (Samples.answering Samples.aliceKey Samples.oneMalformed)
         Samples.cosmoshub "cosmos1alice" (start initialState))
  = Fulfilled Samples.aliceSignature
  /\ requestJson_list (Samples.answering Samples.aliceKey Samples.oneMalformed)
       (listUrl Samples.cosmoshub) (listBody Samples.cosmoshub Samples.aliceSignature)
     = Fulfilled Samples.oneMalformed
  /\ fst (fetchMultisigs (Samples.answering Samples.aliceKey Samples.oneMalformed)
            Samples.cosmoshub "cosmos1alice" (start initialState)) = Fulfilled tt
  /\ multisigs (ui (snd (fetchMultisigs
                           (Samples.answering Samples.aliceKey Samples.oneMalformed)
                           Samples.cosmoshub "cosmos1alice" (start initialState))))
     = Some Samples.oneMalformed
  /\ forall show entry,
       In entry (displayedSet show Samples.oneMalformed) ->
       JSON_parse (pubkeyJSON entry) = Throw SyntaxError ->
       exists e,
         render Samples.cosmoshub
           (setShowBelonged show
              (ui (snd (fetchMultisigs
                          (Samples.answering Samples.aliceKey Samples.oneMalformed)
                          Samples.cosmoshub "cosmos1alice" (start initialState)))))
         = Throw e.
Proof.
  split; [ reflexivity | split; [ reflexivity | ] ].
  exact (fetch_stores_result_as_received
           (Samples.answering Samples.aliceKey Samples.oneMalformed)
           Samples.cosmoshub "cosmos1alice" (start initialState)
           Samples.aliceSignature Samples.oneMalformed eq_refl eq_refl).
Defined.

(** ** The switch *)

(** The guard on the path to the switch is the comparison of the two
    lengths: the outer test (one of the lengths is not zero) adds
    nothing to it. *)
Lemma switch_guard_is_count_comparison m :
  anyMultisig m && lengthsDiffer m = true <-> length (created m) <> length (belonged m).
Proof.
  unfold anyMultisig, lengthsDiffer.
  destruct (Nat.eqb_spec (length (created m)) (length (belonged m))) as [E|N];
    destruct (Nat.eqb_spec (length (created m)) 0);
    destruct (Nat.eqb_spec (length (belonged m)) 0); simpl; split; intros H;
    try discriminate; try reflexivity; try assumption; try lia; congruence.
Qed.

(** The render completes when every displayed row parses, has the two
    properties read from it, and gives React values it can show. *)
Lemma render_completes chain st m :
  multisigs st = Some m ->
  Forall (fun x => exists row, renderRow chain x = Value row /\ row_children_ok row = true)
         (displayedSet (showBelonged st) m) ->
  exists v, render chain st = Value v.
Proof.
  intros Hm Hall. unfold render, renderListSection. rewrite Hm.
  destruct (anyMultisig m); [ | simpl; eauto ].
  assert (Hrows : exists rs, map_result (renderRow chain) (displayedSet (showBelonged st) m)
                             = Value rs /\ forallb row_children_ok rs = true).
  { induction Hall as [|x l (row & Hrow & Hok) _ (rs & Hrs & Hoks)]; simpl.
    - eauto.
    - rewrite Hrow, Hrs. simpl. exists (row :: rs). simpl. rewrite Hok, Hoks. auto. }
  destruct Hrows as (rs & -> & Hoks). simpl. rewrite Hoks. simpl. eauto.
Qed.

(** A render that produced a view rendered every displayed row. *)
Lemma render_value_rows_render chain st m v :
  multisigs st = Some m ->
  render chain st = Value v ->
  Forall (rowRenders chain) (displayedSet (showBelonged st) m).
Proof.
  intros Hm Hv. unfold render, renderListSection in Hv. rewrite Hm in Hv.
  destruct (anyMultisig m) eqn:Hany.
  - destruct (map_result (renderRow chain) (displayedSet (showBelonged st) m)) as [rs|]
      eqn:Hrs; simpl in Hv; [ | discriminate ].
    destruct (forallb row_children_ok rs) eqn:Hok; simpl in Hv; [ | discriminate ].
    apply map_result_value in Hrs. clear Hv.
    induction Hrs as [|x row l rs Hx _ IH]; constructor.
    + simpl in Hok. apply andb_true_iff in Hok. exists row. tauto.
    + apply IH. simpl in Hok. apply andb_true_iff in Hok. tauto.
  - unfold anyMultisig, displayedSet in *.
    destruct (showBelonged st), (created m), (belonged m); simpl in *;
      try discriminate; constructor.
Qed.

(** C4, as the specification states it, at a concrete input: the
    connect flow stores a result with one created row and no belonged
    row, so the two lengths differ, and the created row's [pubkeyJSON]
    is not JSON.  The render of the state the flow leaves throws, and no
    switch is on screen. *)
Lemma switch_absent_when_render_throws :
  multisigs (ui (snd (connectWallet (Samples.answering Samples.aliceKey Samples.oneMalformed)
                        Samples.cosmoshub (start initialState))))
  = Some Samples.oneMalformed
  /\ length (created Samples.oneMalformed) <> length (belonged Samples.oneMalformed)
  /\ render Samples.cosmoshub
       (ui (snd (connectWallet (Samples.answering Samples.aliceKey Samples.oneMalformed)
                   Samples.cosmoshub (start initialState))))
     = Throw SyntaxError
  /\ switchOnScreen Samples.cosmoshub
       (ui (snd (connectWallet (Samples.answering Samples.aliceKey Samples.oneMalformed)
                   Samples.cosmoshub (start initialState))))
     = false.
Proof.
  repeat split; try reflexivity. simpl. discriminate.
Qed.

(** C4, amended: For every held result, the result with two empty
    sequences included, the switch is on screen if and only if the
    created and the belonged sequences differ in length and the render
    completes, that is, every entry of the displayed sequence gives a
    row React can show.  The comparison is one of counts; a displayed
    row that does not render makes the render throw, and then nothing,
    the switch included, is on screen. *)
Theorem switch_on_screen_iff chain st m :
  multisigs st = Some m ->
  (switchOnScreen chain st = true
   <-> length (created m) <> length (belonged m)
       /\ Forall (rowRenders chain) (displayedSet (showBelonged st) m)).
Proof.
  intros Hm. unfold switchOnScreen. split.
  - destruct (render chain st) as [v|e] eqn:Hv; [ | discriminate ].
    intros Hs. split; [ | exact (render_value_rows_render chain st m v Hm Hv) ].
    apply switch_guard_is_count_comparison.
    unfold render, renderListSection in Hv. rewrite Hm in Hv.
    unfold switchShown in Hs.
    destruct (anyMultisig m); simpl in *.
    + destruct (map_result (renderRow chain) (displayedSet (showBelonged st) m)) as [rs|];
        simpl in Hv; [ | discriminate ].
      destruct (forallb row_children_ok rs); simpl in Hv; [ | discriminate ].
      inversion Hv; subst; simpl in Hs.
      destruct (lengthsDiffer m); [ reflexivity | discriminate ].
    + inversion Hv; subst; simpl in Hs. discriminate.
  - intros [Hlen Hall].
    apply switch_guard_is_count_comparison in Hlen.
    apply andb_true_iff in Hlen. destruct Hlen as [Hany Hdiff].
    unfold render, renderListSection. rewrite Hm, Hany.
    assert (Hrows : exists rs,
              map_result (renderRow chain) (displayedSet (showBelonged st) m) = Value rs
              /\ forallb row_children_ok rs = true).
    { induction Hall as [|x l (row & Hrow & Hok) _ (rs & Hrs & Hoks)]; simpl.
      - eauto.
      - rewrite Hrow, Hrs. simpl. exists (row :: rs). simpl. rewrite Hok, Hoks. auto. }
    destruct Hrows as (rs & -> & Hoks). simpl. rewrite Hoks. simpl.
    unfold switchShown. simpl. rewrite Hdiff. reflexivity.
Qed.

Lemma twoAndFive_rows_render :
  Forall (rowRenders Samples.cosmoshub) (displayedSet false Samples.twoAndFive).
Proof.
  repeat constructor; eexists; split; reflexivity.
Defined.

Lemma switch_on_screen_iff_witness :
  multisigs (Samples.holding false Samples.twoAndFive) = Some Samples.twoAndFive
  /\ length (created Samples.twoAndFive) <> length (belonged Samples.twoAndFive)
  /\ Forall (rowRenders Samples.cosmoshub) (displayedSet false Samples.twoAndFive)
  /\ switchOnScreen Samples.cosmoshub (Samples.holding false Samples.twoAndFive) = true.
Proof.
  assert (Hlen : length (created Samples.twoAndFive) <> length (belonged Samples.twoAndFive))
    by (simpl; discriminate).
  split; [ reflexivity | split; [ exact Hlen | split; [ exact twoAndFive_rows_render | ] ] ].
  exact (proj2 (switch_on_screen_iff Samples.cosmoshub
                  (Samples.holding false Samples.twoAndFive) Samples.twoAndFive eq_refl)
           (conj Hlen twoAndFive_rows_render)).
Defined.

(** Both sequences empty, or equal counts of well-formed rows: the
    render completes and the switch is not on screen. *)
Example no_switch_on_screen_for_equal_counts :
  switchOnScreen Samples.cosmoshub
    (Samples.holding false {| created := []; belonged := [] |}) = false
  /\ switchOnScreen Samples.cosmoshub
       (Samples.holding true
          {| created := [Samples.goodEntry "cosmos1m1"];
             belonged := [Samples.goodEntry "cosmos1m2"] |}) = false.
Proof. split; reflexivity. Qed.

(** Scenario D: two created, five belonged, every row well formed: the
    render completes and shows the switch. *)
Example switch_shown_for_two_and_five :
  exists v, render Samples.cosmoshub (Samples.holding false Samples.twoAndFive) = Value v
            /\ switchShown v = true.
Proof. eexists. split; reflexivity. Qed.

(** Scenario C: equal counts, different rows: no switch. *)
Example no_switch_for_equal_counts :
  exists v,
    render Samples.cosmoshub
      (Samples.holding false
         {| created := [Samples.goodEntry "cosmos1m1"];
            belonged := [Samples.goodEntry "cosmos1m2"] |}) = Value v
    /\ switchShown v = false
    /\ shownKeys v = ["cosmos1m1"].
Proof. eexists. repeat split; reflexivity. Qed.

(** A render that throws shows nothing, the switch included: the result
    stored by the fetch of [malformed_row_is_stored] has one created row
    and no belonged row, and its render ends with the [SyntaxError] of
    the row's [pubkeyJSON]. *)
Example render_throws_on_stored_malformed_row :
  render Samples.cosmoshub
    (ui (snd (connectWallet (Samples.answering Samples.aliceKey Samples.oneMalformed)
                Samples.cosmoshub (start initialState))))
  = Throw SyntaxError.
Proof. reflexivity. Qed.

(** Both sequences empty: the render completes and shows no switch. *)
Example no_switch_for_empty_result :
  render Samples.cosmoshub (Samples.holding false {| created := []; belonged := [] |})
  = Value {| verifyButton := None; loadingMultisigs := false;
             noneCreatedText := true; notMemberText := false; listSection := None |}.
Proof. reflexivity. Qed.

(** ** Toggling *)



(** ** The account-change subscription *)

Lemma ChainInfo_eqb_refl a : ChainInfo_eqb a a = true.
Proof. unfold ChainInfo_eqb. rewrite !String.eqb_refl. reflexivity. Qed.

Lemma ChainInfo_eqb_eq a b : ChainInfo_eqb a b = true -> a = b.
Proof.
  unfold ChainInfo_eqb. destruct a, b; simpl.
  rewrite !andb_true_iff, !String.eqb_eq. intros [[[-> ->] ->] ->]. reflexivity.
Qed.

Lemma Deps_eqb_eq a b : Deps_eqb a b = true -> a = b.
Proof.
  unfold Deps_eqb. destruct a as [ca oa], b as [cb ob]; simpl.
  rewrite andb_true_iff. intros [Hc Ho].
  apply ChainInfo_eqb_eq in Hc. subst cb.
  destruct oa, ob; simpl in Ho; try discriminate; [ | reflexivity ].
  apply String.eqb_eq in Ho. subst. reflexivity.
Qed.

(** Replaying a history in two parts. *)
Lemma outstanding_app cs cs' held :
  outstanding (cs ++ cs') held =
  match outstanding cs held with
  | Some held' => outstanding cs' held'
  | None => None
  end.
Proof.
  revert held. induction cs as [|[k l|k l] cs IH]; simpl; intros held.
  - reflexivity.
  - destruct held; [ reflexivity | apply IH ].
  - destruct held as [l'|]; [ | reflexivity ].
    destruct (ChainInfo_eqb l l'); [ apply IH | reflexivity ].
Qed.

(** Calling the cleanup leaves no listener and nothing outstanding. *)
Lemma runCleanup_Subscribed chain st c :
  Subscribed chain st c ->
  cleanup (runCleanup c) = None
  /\ listeners (runCleanup c) = []
  /\ outstanding (calls (runCleanup c)) None = Some None.
Proof.
  intros (_ & Hc & Hl & Ho). unfold runCleanup. rewrite Hc in *.
  destruct (hasAddress st); simpl.
  - rewrite Hl. simpl. rewrite ChainInfo_eqb_refl. simpl.
    rewrite outstanding_app, Ho. simpl. rewrite ChainInfo_eqb_refl. auto.
  - rewrite Hc. auto.
Qed.

Lemma runEffect_clean chain st c :
  cleanup c = None -> listeners c = [] -> outstanding (calls c) None = Some None ->
  Subscribed chain st (runEffect chain st c).
Proof.
  intros Hc Hl Ho. unfold Subscribed, runEffect.
  destruct (hasAddress st); simpl.
  - rewrite Hl, outstanding_app, Ho. simpl. auto.
  - rewrite Hl, Ho. auto.
Qed.

(** Every commit establishes [Subscribed] for the render committed. *)
Lemma commit_Subscribed chain st c :
  c = unmounted \/ (exists chain0 st0, Subscribed chain0 st0 c) ->
  Subscribed chain st (commit chain st c).
Proof.
  intros [->|(chain0 & st0 & H)].
  - unfold commit. simpl. apply runEffect_clean; reflexivity.
  - unfold commit. pose proof H as (Hd & Hc & Hl & Ho). rewrite Hd.
    destruct (Deps_eqb (depsOf chain0 st0) (depsOf chain st)) eqn:E.
    + apply Deps_eqb_eq in E.
      assert (Hg : hasAddress st0 = hasAddress st).
      { unfold hasAddress. unfold depsOf in E. inversion E as [[E1 E2]]. reflexivity. }
      assert (Hch : chain0 = chain) by (unfold depsOf in E; inversion E; reflexivity).
      subst chain0. unfold Subscribed. rewrite <- Hg, <- E. auto.
    + destruct (runCleanup_Subscribed chain0 st0 c H) as (Hc' & Hl' & Ho').
      apply runEffect_clean; assumption.
Qed.

Lemma commits_app rs rs' c :
  commits (rs ++ rs') c = commits rs' (commits rs c).
Proof.
  revert c. induction rs as [|[chain st] rs IH]; simpl; intros c; [ reflexivity | apply IH ].
Qed.

Lemma commits_Subscribed rs c :
  c = unmounted \/ (exists chain0 st0, Subscribed chain0 st0 c) ->
  commits rs c = unmounted \/ (exists chain0 st0, Subscribed chain0 st0 (commits rs c)).
Proof.
  revert c. induction rs as [|[chain st] rs IH]; simpl; intros c H; [ exact H | ].
  apply IH. right. exists chain, st. apply commit_Subscribed. exact H.
Qed.

Lemma life_Subscribed rs chain st :
  Subscribed chain st (commits (rs ++ [(chain, st)]) unmounted).
Proof.
  rewrite commits_app. simpl. apply commit_Subscribed.
  apply commits_Subscribed. left. reflexivity.
Qed.

Lemma hasAddress_true st :
  hasAddress st = true <-> exists wi, walletInfo st = Some wi /\ address wi <> "".
Proof.
  unfold hasAddress. destruct (walletInfo st) as [wi|]; simpl.
  - destruct (address wi) eqn:Ea; simpl; split.
    + discriminate.
    + intros (wi' & Hwi & Hne). inversion Hwi; subst. congruence.
    + intros _. exists wi. split; [ reflexivity | rewrite Ea; discriminate ].
    + reflexivity.
  - split; [ discriminate | intros (wi & Hwi & _); discriminate ].
Qed.

(** C8, as the specification states it, at a concrete input: the agent
    hands out a key whose address is the empty string.  After the
    connect flow the identity cell is not null, and the commit of that
    state registers no listener: the effect's guard reads the address,
    not the identity. *)
Lemma blank_address_identity_has_no_listener :
  walletInfo (ui (snd (connectWallet (Samples.answering Samples.blankKey Samples.twoAndFive)
                         Samples.cosmoshub (start initialState))))
  = Some {| address := ""; pubKey := "AqFc" |}
  /\ walletInfo (ui (snd (connectWallet
                            (Samples.answering Samples.blankKey Samples.twoAndFive)
                            Samples.cosmoshub (start initialState))))
     <> None
  /\ listeners
       (commits
          [(Samples.cosmoshub, initialState);
           (Samples.cosmoshub,
            ui (snd (connectWallet (Samples.answering Samples.blankKey Samples.twoAndFive)
                       Samples.cosmoshub (start initialState))))]
          unmounted)
     = []
  /\ calls
       (commits
          [(Samples.cosmoshub, initialState);
           (Samples.cosmoshub,
            ui (snd (connectWallet (Samples.answering Samples.blankKey Samples.twoAndFive)
                       Samples.cosmoshub (start initialState))))]
          unmounted)
     = [].
Proof.
  repeat split; try reflexivity. vm_compute. discriminate.
Qed.

(** C8, amended: Through every life of the component, after each
    commit the account-change listener is on [window] exactly when the
    committed state holds an identity whose address is not the empty
    string, and it is then the [connectWallet] of that commit; it is
    absent when there is no identity or the address is empty.  The calls
    made on [window] are well bracketed: each registration is followed
    by the removal of the same listener before the next registration,
    the only registration without its removal yet is the one the pending
    cleanup will undo, and discarding the component leaves no listener
    and no registration without its removal. *)
Theorem subscription_follows_address rs chain st :
  ((exists wi, walletInfo st = Some wi /\ address wi <> "") ->
   listeners (commits (rs ++ [(chain, st)]) unmounted) = [chain])
  /\ (~ (exists wi, walletInfo st = Some wi /\ address wi <> "") ->
      listeners (commits (rs ++ [(chain, st)]) unmounted) = [])
  /\ outstanding (calls (commits (rs ++ [(chain, st)]) unmounted)) None
     = Some (cleanup (commits (rs ++ [(chain, st)]) unmounted))
  /\ listeners (unmount (commits (rs ++ [(chain, st)]) unmounted)) = []
  /\ outstanding (calls (unmount (commits (rs ++ [(chain, st)]) unmounted))) None
     = Some None.
Proof.
  pose proof (life_Subscribed rs chain st) as H.
  destruct (runCleanup_Subscribed chain st _ H) as (_ & Hl' & Ho').
  destruct H as (_ & Hc & Hl & Ho).
  repeat split; try assumption.
  - intros Hwi. apply hasAddress_true in Hwi. rewrite Hl, Hwi. reflexivity.
  - intros Hwi. rewrite Hl. destruct (hasAddress st) eqn:E; [ | reflexivity ].
    apply hasAddress_true in E. contradiction.
Qed.

Lemma subscription_follows_address_witness :
  (exists wi, walletInfo (Samples.holding false Samples.twoAndFive) = Some wi
              /\ address wi <> "")
  /\ listeners (commits ([(Samples.cosmoshub, initialState)]
                         ++ [(Samples.cosmoshub, Samples.holding false Samples.twoAndFive)])
                  unmounted)
     = [Samples.cosmoshub]
  /\ listeners (unmount
                  (commits ([(Samples.cosmoshub, initialState)]
                            ++ [(Samples.cosmoshub,
                                 Samples.holding false Samples.twoAndFive)])
                     unmounted))
     = [].
Proof.
  assert (Hwi : exists wi, walletInfo (Samples.holding false Samples.twoAndFive) = Some wi
                           /\ address wi <> "")
    by (exists Samples.aliceInfo; split; [ reflexivity | discriminate ]).
  pose proof (subscription_follows_address [(Samples.cosmoshub, initialState)]
                Samples.cosmoshub (Samples.holding false Samples.twoAndFive))
    as (Hon & _ & _ & Hoff & _).
  split; [ exact Hwi | split; [ exact (Hon Hwi) | exact Hoff ] ].
Defined.

(** A life: mounted without identity, identity obtained, chain changed,
    discarded.  Two registrations, each undone. *)
Example life_of_a_subscription :
  calls (unmount
           (commits [(Samples.cosmoshub, initialState);
                     (Samples.cosmoshub, Samples.holding false Samples.twoAndFive);
                     (Samples.cosmoshub, Samples.holding true Samples.twoAndFive);
                     (Samples.otherhub, Samples.holding true Samples.twoAndFive)]
              unmounted))
  = [AddEventListener accountChangeKey Samples.cosmoshub;
     RemoveEventListener accountChangeKey Samples.cosmoshub;
     AddEventListener accountChangeKey Samples.otherhub;
     RemoveEventListener accountChangeKey Samples.otherhub].
Proof. reflexivity. Qed.

(* ================================================================== *)
(** * Further properties of the code *)

(** ** The connect flow beyond the specification's scenarios *)

(** X1: When the agent fails, at [enable] or at [getKey], the connect
    flow stops there: it is fulfilled, [loading] is false, the identity,
    the result and the toggle are as they were, no request went to the
    node, the backend or the signer, and the last two calls report the
    exception under the message [getConnectError] gives it. *)
Theorem agent_failure_stops_the_flow w chain r e :
  keplr_enable w (chainId chain) = Rejected e
  \/ (keplr_enable w (chainId chain) = Fulfilled tt
      /\ keplr_getKey w (chainId chain) = Rejected e) ->
  exists made,
    connectWallet w chain r =
    (Fulfilled tt,
     {| ui := {| loading := false;
                 walletInfo := walletInfo (ui r);
                 showBelonged := showBelonged (ui r);
                 multisigs := multisigs (ui r) |};
        log := log r ++ made
               ++ [ConsoleError (getConnectError w e) e;
                   ToastError (getConnectError w e) (fullError e)] |})
    /\ existsb is_network_request made = false
    /\ existsb is_sign_request made = false.
Proof.
  intros [He|[He Hk]].
  - exists [KeplrEnable (chainId chain)]. repeat split.
    task_unfold. simpl. rewrite He. simpl. flatten_log. reflexivity.
  - exists [KeplrEnable (chainId chain);
            KeplrDefaultOptions {| preferNoSetFee := true;
                                   preferNoSetMemo := true;
                                   disableBalanceCheck := true |};
            KeplrGetKey (chainId chain)].
    repeat split.
    task_unfold. simpl. rewrite He. simpl. rewrite Hk. simpl. flatten_log. reflexivity.
Qed.

Lemma agent_failure_stops_the_flow_witness :
  keplr_enable Scenarios.agentRefuses (chainId Samples.cosmoshub)
  = Rejected (Error "Request rejected")
  /\ exists made,
       connectWallet Scenarios.agentRefuses Samples.cosmoshub
         (start (Samples.holding true Samples.twoAndFive)) =
       (Fulfilled tt,
        {| ui := Samples.holding true Samples.twoAndFive;
           log := [] ++ made
                  ++ [ConsoleError "Failed to connect to Keplr" (Error "Request rejected");
                      ToastError "Failed to connect to Keplr"
                        (Some (Error "Request rejected"))] |})
       /\ existsb is_network_request made = false
       /\ existsb is_sign_request made = false.
Proof.
  split; [ reflexivity | ].
  exact (agent_failure_stops_the_flow Scenarios.agentRefuses Samples.cosmoshub
           (start (Samples.holding true Samples.twoAndFive)) (Error "Request rejected")
           (or_introl eq_refl)).
Defined.

(** X2: When every collaborator answers, the connect flow makes eight
    calls in this order: enable, the signing options, the key, the node
    connection, the account lookup, the nonce request for the address
    the node returned, the signature request by that address over the
    login document of that nonce, the list request with the signature
    received.  It ends fulfilled with [loading] false, the identity of
    the key, the toggle as it was, and the list answer as the result. *)
Theorem connect_success w chain r key account n response m :
  keplr_enable w (chainId chain) = Fulfilled tt ->
  keplr_getKey w (chainId chain) = Fulfilled key ->
  StargateClient_connect w (nodeAddress chain) = Fulfilled tt ->
  client_getAccount w (bech32Address key) = Fulfilled (Some account) ->
  requestJson_nonce w (nonceUrl chain (account_address account)) = Fulfilled n ->
  keplr_signAmino w (chainId chain) (account_address account)
    (loginSignDoc chain (account_address account) (nonce n)) = Fulfilled response ->
  requestJson_list w (listUrl chain) (listBody chain (signature response)) = Fulfilled m ->
  connectWallet w chain r =
  (Fulfilled tt,
   {| ui := {| loading := false;
               walletInfo := Some {| address := bech32Address key;
                                     pubKey := toBase64 (key_pubKey key) |};
               showBelonged := showBelonged (ui r);
               multisigs := Some m |};
      log := log r
             ++ [KeplrEnable (chainId chain);
                 KeplrDefaultOptions {| preferNoSetFee := true;
                                        preferNoSetMemo := true;
                                        disableBalanceCheck := true |};
                 KeplrGetKey (chainId chain);
                 Connect (nodeAddress chain);
                 GetAccount (bech32Address key);
                 RequestJson (nonceUrl chain (account_address account)) None;
                 KeplrSignAmino (chainId chain) (account_address account)
                   (loginSignDoc chain (account_address account) (nonce n));
                 RequestJson (listUrl chain)
                   (Some (listBody chain (signature response)))] |}).
Proof.
  intros He Hk Hc Ha Hn Hs Hl.
  task_unfold. simpl. rewrite He. simpl. rewrite Hk. simpl.
  rewrite Hc. simpl. rewrite Ha. simpl. rewrite Hn. simpl. rewrite Hs. simpl.
  rewrite Hl. simpl. flatten_log. reflexivity.
Qed.

Lemma connect_success_witness :
  keplr_getKey Scenarios.canonicalising (chainId Samples.cosmoshub)
  = Fulfilled Samples.aliceKey
  /\ client_getAccount Scenarios.canonicalising "cosmos1alice"
     = Fulfilled (Some {| account_address := "cosmos1canonical" |})
  /\ connectWallet Scenarios.canonicalising Samples.cosmoshub (start initialState) =
     (Fulfilled tt,
      {| ui := {| loading := false; walletInfo := Some Samples.aliceInfo;
                  showBelonged := false; multisigs := Some Samples.twoAndFive |};
         log := [KeplrEnable "cosmoshub-4";
                 KeplrDefaultOptions {| preferNoSetFee := true;
                                        preferNoSetMemo := true;
                                        disableBalanceCheck := true |};
                 KeplrGetKey "cosmoshub-4";
                 Connect "https://rpc.cosmos.network";
                 GetAccount "cosmos1alice";
                 RequestJson "/api/chain/cosmoshub-4/nonce/cosmos1canonical" None;
                 KeplrSignAmino "cosmoshub-4" "cosmos1canonical"
                   (loginSignDoc Samples.cosmoshub "cosmos1canonical" "7");
                 RequestJson "/api/chain/cosmoshub-4/multisig/list"
                   (Some (listBody Samples.cosmoshub Samples.aliceSignature))] |}).
Proof.
  split; [ reflexivity | split; [ reflexivity | ] ].
  exact (connect_success Scenarios.canonicalising Samples.cosmoshub (start initialState)
           Samples.aliceKey {| account_address := "cosmos1canonical" |} {| nonce := "7" |}
           {| signed := loginSignDoc Samples.cosmoshub "cosmos1canonical" "7";
              signature := Samples.aliceSignature |}
           Samples.twoAndFive eq_refl eq_refl eq_refl eq_refl eq_refl eq_refl eq_refl).
Defined.

(** X3: The connect flow writes the identity and the result cells only
    with what the collaborators answered in that invocation: afterwards
    the identity is the one it was or the one built from the key the
    agent handed out, the result is the one it was or the answer of the
    list request, and the toggle is the one it was.  In particular no
    invocation, failed or not, resets the identity or the result to
    null. *)
Theorem state_written_only_from_answers w chain r :
  (walletInfo (ui (snd (connectWallet w chain r))) = walletInfo (ui r)
   \/ exists key,
        keplr_getKey w (chainId chain) = Fulfilled key
        /\ walletInfo (ui (snd (connectWallet w chain r)))
           = Some {| address := bech32Address key; pubKey := toBase64 (key_pubKey key) |})
  /\ (multisigs (ui (snd (connectWallet w chain r))) = multisigs (ui r)
      \/ exists sig m,
           requestJson_list w (listUrl chain) (listBody chain sig) = Fulfilled m
           /\ multisigs (ui (snd (connectWallet w chain r))) = Some m)
  /\ showBelonged (ui (snd (connectWallet w chain r))) = showBelonged (ui r).
Proof.
  task_unfold. simpl.
  repeat (next_call; simpl);
    (split; [ | split; [ | reflexivity ] ]);
    first [ left; reflexivity | right; eauto ].
Qed.

(** X4: Whenever the connect flow sends a request with a body, it is
    the list request of the chain, sent after the agent has signed in
    this invocation, and its body is the chain together with the
    signature the agent returned, unchanged. *)
Theorem list_request_carries_agent_signature w chain st url body :
  In (RequestJson url (Some body)) (log (snd (connectWallet w chain (start st)))) ->
  url = listUrl chain
  /\ body_chain body = chain
  /\ exists key account n response,
       keplr_getKey w (chainId chain) = Fulfilled key
       /\ client_getAccount w (bech32Address key) = Fulfilled (Some account)
       /\ requestJson_nonce w (nonceUrl chain (account_address account)) = Fulfilled n
       /\ keplr_signAmino w (chainId chain) (account_address account)
            (loginSignDoc chain (account_address account) (nonce n)) = Fulfilled response
       /\ body_signature body = signature response.
Proof.
  task_unfold. simpl.
  repeat (next_call; simpl);
    intros H;
    repeat (destruct H as [H|H]; try discriminate H);
    try contradiction;
    inversion H; subst; simpl;
    (split; [ reflexivity | split; [ reflexivity | ] ]);
    do 4 eexists; repeat split; eassumption.
Qed.

Lemma list_request_carries_agent_signature_witness :
  In (RequestJson "/api/chain/cosmoshub-4/multisig/list"
        (Some (listBody Samples.cosmoshub Samples.aliceSignature)))
     (log (snd (connectWallet Scenarios.canonicalising Samples.cosmoshub (start initialState))))
  /\ "/api/chain/cosmoshub-4/multisig/list" = listUrl Samples.cosmoshub
  /\ body_chain (listBody Samples.cosmoshub Samples.aliceSignature) = Samples.cosmoshub.
Proof.
  assert (H : In (RequestJson "/api/chain/cosmoshub-4/multisig/list"
                    (Some (listBody Samples.cosmoshub Samples.aliceSignature)))
                 (log (snd (connectWallet Scenarios.canonicalising Samples.cosmoshub
                              (start initialState)))))
    by (simpl; auto 10).
  destruct (list_request_carries_agent_signature Scenarios.canonicalising Samples.cosmoshub
              initialState _ _ H) as (Hu & Hc & _).
  split; [ exact H | split; [ exact Hu | exact Hc ] ].
Defined.

(** X5: Every request [getSignature] makes after the lookup is for the
    address of the account the node returned, not for the string it was
    called with: the nonce request, which has no body, goes to the nonce
    address of that account, and the signature request names that
    account as the signer, in the call and in the one message of the
    document, for the chain in use. *)
Theorem requests_use_the_resolved_address w chain a st :
  Forall
    (fun ev =>
       match ev with
       | RequestJson url body =>
           body = None
           /\ exists account,
                client_getAccount w a = Fulfilled (Some account)
                /\ url = nonceUrl chain (account_address account)
       | KeplrSignAmino c s d =>
           c = chainId chain
           /\ exists account,
                client_getAccount w a = Fulfilled (Some account)
                /\ s = account_address account
                /\ map (fun m => signer (value m)) (msgs d) = [account_address account]
       | _ => True
       end)
    (log (snd (getSignature w chain a (start st)))).
Proof.
  task_unfold. simpl.
  repeat (next_call; simpl);
    repeat (constructor; simpl; eauto 10).
Qed.

(** Resolved address and asked address differ: the requests follow the
    resolved one. *)
Example requests_for_canonical_address :
  log (snd (getSignature Scenarios.canonicalising Samples.cosmoshub "cosmos1alice"
              (start initialState)))
  = [Connect "https://rpc.cosmos.network";
     GetAccount "cosmos1alice";
     RequestJson "/api/chain/cosmoshub-4/nonce/cosmos1canonical" None;
     KeplrSignAmino "cosmoshub-4" "cosmos1canonical"
       (loginSignDoc Samples.cosmoshub "cosmos1canonical" "7")].
Proof. reflexivity. Qed.

(** X6: Neither [connectWallet] nor [fetchMultisigs] is ever rejected:
    whatever a collaborator throws is caught inside, so the click
    handler and the event listener that call them never leave a
    rejection unhandled. *)
Theorem callbacks_never_reject w chain a r e :
  fst (connectWallet w chain r) <> Rejected e
  /\ fst (fetchMultisigs w chain a r) <> Rejected e.
Proof.
  split; task_unfold; simpl; repeat (next_call; simpl; try discriminate).
Qed.

(** X7: While an awaited call of the connect flow has not settled, the
    flow has reported nothing (no console error, no toast), [loading] is
    still true, and the result cell is the one it was. *)
Theorem unsettled_flow_is_silent w chain st :
  fst (connectWallet w chain (start st)) = Pending ->
  loading (ui (snd (connectWallet w chain (start st)))) = true
  /\ multisigs (ui (snd (connectWallet w chain (start st)))) = multisigs st
  /\ forallb (fun ev => match ev with
                        | ConsoleError _ _ | ToastError _ _ => false
                        | _ => true
                        end)
             (log (snd (connectWallet w chain (start st)))) = true.
Proof.
  task_unfold. simpl.
  repeat (next_call; simpl; try discriminate); intros _; repeat split.
Qed.

Lemma unsettled_flow_is_silent_witness :
  fst (connectWallet Scenarios.listHangs Samples.cosmoshub (start initialState)) = Pending
  /\ loading (ui (snd (connectWallet Scenarios.listHangs Samples.cosmoshub
                         (start initialState)))) = true
  /\ multisigs (ui (snd (connectWallet Scenarios.listHangs Samples.cosmoshub
                           (start initialState)))) = None
  /\ walletInfo (ui (snd (connectWallet Scenarios.listHangs Samples.cosmoshub
                            (start initialState)))) = Some Samples.aliceInfo.
Proof.
  destruct (unsettled_flow_is_silent Scenarios.listHangs Samples.cosmoshub initialState
              eq_refl) as (Hl & Hm & _).
  split; [ reflexivity | split; [ exact Hl | split; [ exact Hm | reflexivity ] ] ].
Defined.

(** ** Rendering beyond the switch *)

(** X8: The [loading] flag shows only on the verify button: once an
    identity or a result is held, a render does not depend on it, so a
    reconnection in flight changes nothing on screen. *)
Theorem loading_shows_only_on_the_button chain st b :
  walletInfo st <> None \/ multisigs st <> None ->
  render chain (setLoading b st) = render chain st.
Proof.
  intros H. unfold render, renderListSection. simpl.
  destruct (walletInfo st), (multisigs st); simpl; try reflexivity.
  destruct H as [H|H]; contradiction.
Qed.

Lemma loading_shows_only_on_the_button_witness :
  walletInfo (Samples.holding false Samples.twoAndFive) <> None
  /\ render Samples.cosmoshub (setLoading true (Samples.holding false Samples.twoAndFive))
     = render Samples.cosmoshub (Samples.holding false Samples.twoAndFive).
Proof.
  assert (H : walletInfo (Samples.holding false Samples.twoAndFive) <> None)
    by discriminate.
  split; [ exact H | ].
  exact (loading_shows_only_on_the_button Samples.cosmoshub
           (Samples.holding false Samples.twoAndFive) true (or_introl H)).
Defined.

(** X9: Every view the render produces shows exactly one of four
    things.  With no result held: the verify button, disabled while
    [loading], when there is no identity, and the loading caption when
    there is one.  With a result held: the text for an empty sequence
    when the displayed sequence is empty (the text about created
    multisigs when the toggle is off, the one about membership when it
    is on), and otherwise one row for each entry of the displayed
    sequence. *)
Theorem view_shows_one_region chain st v :
  render chain st = Value v ->
  match multisigs st with
  | None =>
      listSection v = None /\ noneCreatedText v = false /\ notMemberText v = false
      /\ match walletInfo st with
         | None => verifyButton v = Some (loading st) /\ loadingMultisigs v = false
         | Some _ => verifyButton v = None /\ loadingMultisigs v = true
         end
  | Some m =>
      verifyButton v = None /\ loadingMultisigs v = false
      /\ match displayedSet (showBelonged st) m with
         | [] =>
             shownKeys v = []
             /\ noneCreatedText v = negb (showBelonged st)
             /\ notMemberText v = showBelonged st
         | entry :: others =>
             noneCreatedText v = false /\ notMemberText v = false
             /\ length (shownKeys v) = S (length others)
         end
  end.
Proof.
  intros Hv. unfold render, renderListSection in Hv.
  destruct (multisigs st) as [m|] eqn:Hm.
  - assert (Hsec : exists sec, (if anyMultisig m
                                then and_then (map_result (renderRow chain)
                                                 (displayedSet (showBelonged st) m))
                                       (fun rs => if forallb row_children_ok rs
                                                  then Value (Some {| switch :=
                                                           if lengthsDiffer m
                                                           then Some (showBelonged st)
                                                           else None; rows := rs |})
                                                  else Throw InvalidReactChild)
                                else Value None) = Value sec
                               /\ v = {| verifyButton :=
                                           if isNull (walletInfo st) && isNull (Some m)
                                           then Some (loading st) else None;
                                         loadingMultisigs :=
                                           negb (isNull (walletInfo st)) && isNull (Some m);
                                         noneCreatedText :=
                                           negb (showBelonged st)
                                           && Nat.eqb (length (created m)) 0;
                                         notMemberText :=
                                           showBelonged st
                                           && Nat.eqb (length (belonged m)) 0;
                                         listSection := sec |}).
    { match type of Hv with
      | and_then ?t _ = _ => destruct t as [sec|]; simpl in Hv; [ | discriminate ]
      end.
      exists sec. split; [ reflexivity | inversion Hv; reflexivity ]. }
    destruct Hsec as (sec & Hsec & ->). simpl.
    rewrite !andb_false_r. repeat split.
    unfold shownKeys. simpl.
    destruct (anyMultisig m) eqn:Hany.
    + destruct (map_result (renderRow chain) (displayedSet (showBelonged st) m)) as [rs|]
        eqn:Hrs; simpl in Hsec; [ | discriminate ].
      destruct (forallb row_children_ok rs); [ | discriminate ].
      inversion Hsec; subst sec; simpl.
      rewrite (rendered_rows_keys chain _ _ Hrs).
      unfold displayedSet in *. unfold anyMultisig in Hany.
      destruct (showBelonged st), (created m), (belonged m); simpl in *;
        repeat split; try reflexivity; try discriminate;
        rewrite length_map; reflexivity.
    + inversion Hsec; subst sec; simpl.
      unfold displayedSet, anyMultisig in *.
      destruct (showBelonged st), (created m), (belonged m); simpl in *;
        repeat split; try reflexivity; discriminate.
  - simpl in Hv. inversion Hv; subst; simpl.
    destruct (walletInfo st); simpl; repeat split.
Qed.

Lemma view_shows_one_region_witness :
  (exists v, render Samples.cosmoshub (Samples.holding true Samples.oneMalformed) = Value v)
  /\ forall v,
       render Samples.cosmoshub (Samples.holding true Samples.oneMalformed) = Value v ->
       verifyButton v = None /\ loadingMultisigs v = false
       /\ shownKeys v = [] /\ noneCreatedText v = false /\ notMemberText v = true.
Proof.
  split; [ eexists; reflexivity | ].
  intros v Hv.
  exact (view_shows_one_region Samples.cosmoshub
           (Samples.holding true Samples.oneMalformed) v Hv).
Defined.

(** X10: The render reads the sequence that is not displayed only for
    its length: replacing the held result by one with the same displayed
    sequence and the same two lengths gives the same render, view or
    exception.  A malformed row does no harm while its sequence is not
    the displayed one. *)
Theorem hidden_sequence_is_only_counted chain st m m' :
  multisigs st = Some m ->
  displayedSet (showBelonged st) m' = displayedSet (showBelonged st) m ->
  length (created m') = length (created m) ->
  length (belonged m') = length (belonged m) ->
  render chain (setMultisigs (Some m') st) = render chain st.
Proof.
  intros Hm Hd Hc Hb. unfold render, renderListSection. simpl. rewrite Hm.
  unfold anyMultisig, lengthsDiffer. rewrite Hd, Hc, Hb. reflexivity.
Qed.

Lemma hidden_sequence_is_only_counted_witness :
  multisigs (Samples.holding false Scenarios.hiddenRepaired) = Some Scenarios.hiddenRepaired
  /\ render Samples.cosmoshub
       (setMultisigs (Some Scenarios.hiddenMalformed)
          (Samples.holding false Scenarios.hiddenRepaired))
     = render Samples.cosmoshub (Samples.holding false Scenarios.hiddenRepaired)
  /\ (exists v, render Samples.cosmoshub (Samples.holding false Scenarios.hiddenMalformed)
                = Value v /\ shownKeys v = ["cosmos1m1"])
  /\ render Samples.cosmoshub (Samples.holding true Scenarios.hiddenMalformed)
     = Throw SyntaxError.
Proof.
  split; [ reflexivity | split; [ | split; [ eexists; split; reflexivity | reflexivity ] ] ].
  exact (hidden_sequence_is_only_counted Samples.cosmoshub
           (Samples.holding false Scenarios.hiddenRepaired)
           Scenarios.hiddenRepaired Scenarios.hiddenMalformed
           eq_refl eq_refl eq_refl eq_refl).
Defined.

(** X11: With a result held, the render completes exactly when every
    entry of the displayed sequence gives a row (its [pubkeyJSON]
    parses, [value] and [value.pubkeys] can be read from) whose two
    badge values React can show; otherwise it throws. *)
Theorem render_completes_iff_rows_render chain st m :
  multisigs st = Some m ->
  ((exists v, render chain st = Value v)
   <-> Forall (fun x => exists row, renderRow chain x = Value row
                                    /\ row_children_ok row = true)
              (displayedSet (showBelonged st) m)).
Proof.
  intros Hm. split.
  - intros [v Hv]. unfold render, renderListSection in Hv. rewrite Hm in Hv.
    destruct (anyMultisig m) eqn:Hany.
    + destruct (map_result (renderRow chain) (displayedSet (showBelonged st) m)) as [rs|]
        eqn:Hrs; simpl in Hv; [ | discriminate ].
      destruct (forallb row_children_ok rs) eqn:Hok; simpl in Hv; [ | discriminate ].
      apply map_result_value in Hrs. clear Hv.
      induction Hrs as [|x row l rs Hx _ IH]; constructor.
      * simpl in Hok. apply andb_true_iff in Hok. exists row. tauto.
      * apply IH. simpl in Hok. apply andb_true_iff in Hok. tauto.
    + unfold anyMultisig, displayedSet in *.
      destruct (showBelonged st), (created m), (belonged m); simpl in *;
        try discriminate; constructor.
  - intros Hall. unfold render, renderListSection. rewrite Hm.
    destruct (anyMultisig m); [ | simpl; eauto ].
    assert (Hrows : exists rs,
              map_result (renderRow chain) (displayedSet (showBelonged st) m) = Value rs
              /\ forallb row_children_ok rs = true).
    { induction Hall as [|x l (row & Hrow & Hok) _ (rs & Hrs & Hoks)]; simpl.
      - eauto.
      - rewrite Hrow, Hrs. simpl. exists (row :: rs). simpl. rewrite Hok, Hoks. auto. }
    destruct Hrows as (rs & -> & Hoks). simpl. rewrite Hoks. simpl. eauto.
Qed.

Lemma render_completes_iff_rows_render_witness :
  multisigs (Samples.holding true Scenarios.hiddenMalformed) = Some Scenarios.hiddenMalformed
  /\ ~ (exists v, render Samples.cosmoshub (Samples.holding true Scenarios.hiddenMalformed)
                  = Value v)
  /\ ~ Forall (fun x => exists row, renderRow Samples.cosmoshub x = Value row
                                    /\ row_children_ok row = true)
              (displayedSet true Scenarios.hiddenMalformed).
Proof.
  pose proof (render_completes_iff_rows_render Samples.cosmoshub
                (Samples.holding true Scenarios.hiddenMalformed)
                Scenarios.hiddenMalformed eq_refl) as [_ Hback].
  assert (Hno : ~ (exists v, render Samples.cosmoshub
                               (Samples.holding true Scenarios.hiddenMalformed) = Value v))
    by (intros [v Hv]; discriminate Hv).
  split; [ reflexivity | split; [ exact Hno | ] ].
  intros Hall. apply Hno. apply Hback. exact Hall.
Defined.

(** The map stops at the first entry that throws, the entries before it
    having given their rows. *)
Lemma map_result_first_throw {A B} (f : A -> result B) before x after e :
  Forall (fun y => exists z, f y = Value z) before ->
  f x = Throw e ->
  map_result f (before ++ x :: after) = Throw e.
Proof.
  induction 1 as [|y l [z Hz] _ IH]; simpl; intros Hx.
  - rewrite Hx. reflexivity.
  - rewrite Hz. simpl. rewrite (IH Hx). reflexivity.
Qed.

(** X12: An entry whose [pubkeyJSON] is valid JSON but is not an object
    with a [value] member other than [null] (the literal [null], a
    number, a string, a boolean, an array, an object without [value])
    makes the map callback throw a [TypeError]; when it is displayed
    and the entries before it in the displayed sequence give their rows,
    the render ends with that [TypeError]. *)
Theorem valueless_pubkey_is_a_TypeError chain st m before x after j :
  multisigs st = Some m ->
  displayedSet (showBelonged st) m = before ++ x :: after ->
  Forall (fun y => exists row, renderRow chain y = Value row) before ->
  JSON_parse (pubkeyJSON x) = Value j ->
  match j with
  | JObject ms =>
      own_property (units_of "value") ms = Undefined
      \/ own_property (units_of "value") ms = Parsed JNull
  | _ => True
  end ->
  renderRow chain x = Throw TypeError
  /\ render chain st = Throw TypeError.
Proof.
  intros Hm Hd Hbefore Hp Hj.
  assert (Hrow : renderRow chain x = Throw TypeError).
  { unfold renderRow. rewrite Hp. simpl.
    destruct j; simpl; try reflexivity.
    destruct Hj as [-> | ->]; reflexivity. }
  split; [ exact Hrow | ].
  unfold render, renderListSection. rewrite Hm.
  rewrite (displayed_entry_anyMultisig (showBelonged st) m x)
    by (rewrite Hd; apply in_or_app; right; left; reflexivity).
  rewrite Hd, (map_result_first_throw (renderRow chain) before x after TypeError Hbefore Hrow).
  reflexivity.
Qed.

Lemma valueless_pubkey_is_a_TypeError_witness :
  displayedSet false
    {| created := [Samples.goodEntry "cosmos1m1"; Scenarios.nullEntry "cosmos1m2";
                   Samples.badEntry "cosmos1m3"];
       belonged := [] |}
  = [Samples.goodEntry "cosmos1m1"] ++ Scenarios.nullEntry "cosmos1m2"
                                       :: [Samples.badEntry "cosmos1m3"]
  /\ JSON_parse (pubkeyJSON (Scenarios.nullEntry "cosmos1m2")) = Value JNull
  /\ renderRow Samples.cosmoshub (Scenarios.nullEntry "cosmos1m2") = Throw TypeError
  /\ render Samples.cosmoshub
       (Samples.holding false
          {| created := [Samples.goodEntry "cosmos1m1"; Scenarios.nullEntry "cosmos1m2";
                         Samples.badEntry "cosmos1m3"];
             belonged := [] |})
     = Throw TypeError.
Proof.
  split; [ reflexivity | split; [ reflexivity | ] ].
  assert (Hbefore : Forall (fun y => exists row, renderRow Samples.cosmoshub y = Value row)
                      [Samples.goodEntry "cosmos1m1"])
    by (repeat constructor; eexists; reflexivity).
  exact (valueless_pubkey_is_a_TypeError Samples.cosmoshub
           (Samples.holding false
              {| created := [Samples.goodEntry "cosmos1m1"; Scenarios.nullEntry "cosmos1m2";
                             Samples.badEntry "cosmos1m3"];
                 belonged := [] |})
           _ [Samples.goodEntry "cosmos1m1"] (Scenarios.nullEntry "cosmos1m2")
           [Samples.badEntry "cosmos1m3"] JNull
           eq_refl eq_refl Hbefore eq_refl I).
Defined.

(** An earlier row that is not JSON decides the exception instead. *)
Example earlier_row_decides_the_exception :
  render Samples.cosmoshub
    (Samples.holding false
       {| created := [Samples.badEntry "cosmos1m1"; Scenarios.nullEntry "cosmos1m2"];
          belonged := [] |})
  = Throw SyntaxError.
Proof. reflexivity. Qed.

(** ** The subscription beyond its pairing *)

Lemma Deps_eqb_refl d : Deps_eqb d d = true.
Proof.
  destruct d as [c [a|]]; unfold Deps_eqb; simpl;
    rewrite ChainInfo_eqb_refl; [ apply String.eqb_refl | reflexivity ].
Qed.

(** X13: A commit that changes neither the chain nor the address of
    the identity (a new value of [loading], of the toggle, of the
    result, or an identity with the same address) leaves the
    subscription alone: React's record of the effect, the listeners and
    the calls made on [window] are what they were. *)
Theorem unrelated_commits_keep_the_subscription rs chain st st' :
  option_map address (walletInfo st') = option_map address (walletInfo st) ->
  commits (rs ++ [(chain, st); (chain, st')]) unmounted
  = commits (rs ++ [(chain, st)]) unmounted.
Proof.
  intros Ha.
  replace (rs ++ [(chain, st); (chain, st')])
    with ((rs ++ [(chain, st)]) ++ [(chain, st')])
    by (rewrite <- app_assoc; reflexivity).
  rewrite (commits_app (rs ++ [(chain, st)])). simpl.
  destruct (life_Subscribed rs chain st) as (Hd & _).
  unfold commit. rewrite Hd.
  replace (depsOf chain st') with (depsOf chain st)
    by (unfold depsOf; rewrite Ha; reflexivity).
  rewrite Deps_eqb_refl. reflexivity.
Qed.

Lemma unrelated_commits_keep_the_subscription_witness :
  option_map address (walletInfo (Samples.holding true Samples.oneMalformed))
  = option_map address (walletInfo (Samples.holding false Samples.twoAndFive))
  /\ calls (commits ([(Samples.cosmoshub, initialState)]
                     ++ [(Samples.cosmoshub, Samples.holding false Samples.twoAndFive);
                         (Samples.cosmoshub, Samples.holding true Samples.oneMalformed)])
              unmounted)
     = [AddEventListener accountChangeKey Samples.cosmoshub].
Proof.
  split; [ reflexivity | ].
  rewrite (unrelated_commits_keep_the_subscription [(Samples.cosmoshub, initialState)]
             Samples.cosmoshub (Samples.holding false Samples.twoAndFive)
             (Samples.holding true Samples.oneMalformed) eq_refl).
  reflexivity.
Defined.

(** X14: A component that never holds an identity with a non-empty
    address makes no call on [window], through all its commits and when
    it is discarded. *)
Theorem no_address_no_window_call rs :
  Forall (fun p => hasAddress (snd p) = false) rs ->
  calls (commits rs unmounted) = []
  /\ listeners (commits rs unmounted) = []
  /\ calls (unmount (commits rs unmounted)) = [].
Proof.
  intros Hall.
  assert (Hinv : forall c,
            calls c = [] /\ listeners c = [] /\ cleanup c = None ->
            calls (commits rs c) = [] /\ listeners (commits rs c) = []
            /\ cleanup (commits rs c) = None).
  { induction Hall as [|[chain st] l Hst _ IH]; simpl; intros c Hc; [ exact Hc | ].
    apply IH. destruct Hc as (Hcalls & Hls & Hcl). simpl in Hst.
    unfold commit.
    assert (Hrun : calls (runEffect chain st (runCleanup c)) = []
                   /\ listeners (runEffect chain st (runCleanup c)) = []
                   /\ cleanup (runEffect chain st (runCleanup c)) = None).
    { unfold runCleanup. rewrite Hcl. unfold runEffect. rewrite Hst. simpl. auto. }
    destruct (lastDeps c) as [d|]; [ | exact Hrun ].
    destruct (Deps_eqb d (depsOf chain st)); [ auto | exact Hrun ]. }
  destruct (Hinv unmounted) as (Hcalls & Hls & Hcl); [ simpl; auto | ].
  repeat split; try assumption.
  unfold unmount, runCleanup. rewrite Hcl. exact Hcalls.
Qed.

Lemma no_address_no_window_call_witness :
  Forall (fun p => hasAddress (snd p) = false)
    [(Samples.cosmoshub, initialState);
     (Samples.cosmoshub, setLoading true initialState);
     (Samples.otherhub,
      ui (snd (connectWallet (Samples.answering Samples.blankKey Samples.twoAndFive)
                 Samples.otherhub (start initialState))))]
  /\ calls (unmount
              (commits
                 [(Samples.cosmoshub, initialState);
                  (Samples.cosmoshub, setLoading true initialState);
                  (Samples.otherhub,
                   ui (snd (connectWallet
                              (Samples.answering Samples.blankKey Samples.twoAndFive)
                              Samples.otherhub (start initialState))))]
                 unmounted))
     = [].
Proof.
  assert (H : Forall (fun p => hasAddress (snd p) = false)
                [(Samples.cosmoshub, initialState);
                 (Samples.cosmoshub, setLoading true initialState);
                 (Samples.otherhub,
                  ui (snd (connectWallet
                             (Samples.answering Samples.blankKey Samples.twoAndFive)
                             Samples.otherhub (start initialState))))])
    by (repeat constructor).
  split; [ exact H | ].
  exact (proj2 (proj2 (no_address_no_window_call _ H))).
Defined.

(** X15: When a commit changes the chain or the address while an
    address is held before and after, React removes the listener of the
    previous commit and then registers the [connectWallet] of the new
    one: exactly these two calls are added, in this order, and the new
    listener is the only one on [window]. *)
Theorem change_swaps_the_listener rs chain st chain' st' :
  hasAddress st = true ->
  hasAddress st' = true ->
  depsOf chain st <> depsOf chain' st' ->
  calls (commits (rs ++ [(chain, st); (chain', st')]) unmounted)
  = calls (commits (rs ++ [(chain, st)]) unmounted)
    ++ [RemoveEventListener accountChangeKey chain;
        AddEventListener accountChangeKey chain']
  /\ listeners (commits (rs ++ [(chain, st); (chain', st')]) unmounted) = [chain'].
Proof.
  intros Hst Hst' Hne.
  replace (rs ++ [(chain, st); (chain', st')])
    with ((rs ++ [(chain, st)]) ++ [(chain', st')])
    by (rewrite <- app_assoc; reflexivity).
  rewrite (commits_app (rs ++ [(chain, st)])). simpl.
  destruct (life_Subscribed rs chain st) as (Hd & Hc & Hl & _).
  rewrite Hst in Hc, Hl.
  unfold commit. rewrite Hd.
  destruct (Deps_eqb (depsOf chain st) (depsOf chain' st')) eqn:E.
  - apply Deps_eqb_eq in E. contradiction.
  - unfold runCleanup. rewrite Hc. unfold runEffect. rewrite Hst'. simpl.
    rewrite Hl. simpl. rewrite ChainInfo_eqb_refl. simpl.
    rewrite <- app_assoc. split; reflexivity.
Qed.

Lemma change_swaps_the_listener_witness :
  hasAddress (Samples.holding false Samples.twoAndFive) = true
  /\ depsOf Samples.cosmoshub (Samples.holding false Samples.twoAndFive)
     <> depsOf Samples.cosmoshub
          (setWalletInfo (Some Scenarios.bobInfo) (Samples.holding false Samples.twoAndFive))
  /\ calls (commits ([(Samples.cosmoshub, initialState)]
                     ++ [(Samples.cosmoshub, Samples.holding false Samples.twoAndFive);
                         (Samples.cosmoshub,
                          setWalletInfo (Some Scenarios.bobInfo)
                            (Samples.holding false Samples.twoAndFive))])
              unmounted)
     = [AddEventListener accountChangeKey Samples.cosmoshub;
        RemoveEventListener accountChangeKey Samples.cosmoshub;
        AddEventListener accountChangeKey Samples.cosmoshub].
Proof.
  assert (Hne : depsOf Samples.cosmoshub (Samples.holding false Samples.twoAndFive)
                <> depsOf Samples.cosmoshub
                     (setWalletInfo (Some Scenarios.bobInfo)
                        (Samples.holding false Samples.twoAndFive)))
    by (intros H; discriminate H).
  split; [ reflexivity | split; [ exact Hne | ] ].
  rewrite (proj1 (change_swaps_the_listener [(Samples.cosmoshub, initialState)]
                    Samples.cosmoshub (Samples.holding false Samples.twoAndFive)
                    Samples.cosmoshub
                    (setWalletInfo (Some Scenarios.bobInfo)
                       (Samples.holding false Samples.twoAndFive))
                    eq_refl eq_refl Hne)).
  reflexivity.
Defined.

(** X16: As soon as the agent has handed out a key with a non-empty
    address, the state the connect flow leaves, settled or still waiting
    for the node, the backend or the signer, holds that address, so the
    commit of that state registers the account-change listener: a change
    of account can start a second connect flow while the first is in
    flight. *)
Theorem key_obtained_registers_listener w chain key :
  keplr_enable w (chainId chain) = Fulfilled tt ->
  keplr_getKey w (chainId chain) = Fulfilled key ->
  bech32Address key <> "" ->
  walletInfo (ui (snd (connectWallet w chain (start initialState))))
  = Some {| address := bech32Address key; pubKey := toBase64 (key_pubKey key) |}
  /\ listeners
       (commits [(chain, initialState);
                 (chain, ui (snd (connectWallet w chain (start initialState))))]
          unmounted)
     = [chain].
Proof.
  intros He Hk Hne.
  assert (Hwi : walletInfo (ui (snd (connectWallet w chain (start initialState))))
                = Some {| address := bech32Address key;
                          pubKey := toBase64 (key_pubKey key) |}).
  { rewrite (connectWallet_after_key w chain key (start initialState) He Hk).
    match goal with
    | |- context [fetchMultisigs w chain ?a ?r1] =>
        destruct (fetchMultisigs_frame w chain a r1) as (_ & _ & Hw & _);
        destruct (fetchMultisigs w chain a r1) as [[u|e|] r2]; simpl in *;
        rewrite Hw; reflexivity
    end. }
  split; [ exact Hwi | ].
  destruct (life_Subscribed [(chain, initialState)] chain
              (ui (snd (connectWallet w chain (start initialState)))))
    as (_ & _ & Hl & _).
  simpl app in Hl. rewrite Hl.
  unfold hasAddress. rewrite Hwi. simpl.
  destruct (bech32Address key); [ contradiction | reflexivity ].
Qed.

Lemma key_obtained_registers_listener_witness :
  keplr_getKey Scenarios.listHangs (chainId Samples.cosmoshub) = Fulfilled Samples.aliceKey
  /\ fst (connectWallet Scenarios.listHangs Samples.cosmoshub (start initialState)) = Pending
  /\ listeners
       (commits [(Samples.cosmoshub, initialState);
                 (Samples.cosmoshub,
                  ui (snd (connectWallet Scenarios.listHangs Samples.cosmoshub
                             (start initialState))))]
          unmounted)
     = [Samples.cosmoshub].
Proof.
  split; [ reflexivity | split; [ reflexivity | ] ].
  assert (Hne : bech32Address Samples.aliceKey <> "") by discriminate.
  exact (proj2 (key_obtained_registers_listener Scenarios.listHangs Samples.cosmoshub
                  Samples.aliceKey eq_refl eq_refl Hne)).
Defined.

(** ** The encoders *)

Section Encoders.

Local Open Scope string_scope.

Lemma string_app_assoc (a b c : string) : (a ++ b) ++ c = a ++ (b ++ c).
Proof. induction a as [|x a IH]; simpl; [ reflexivity | rewrite IH; reflexivity ]. Qed.

Lemma string_app_length (a b : string) :
  String.length (a ++ b) = String.length a + String.length b.
Proof. induction a as [|x a IH]; simpl; [ reflexivity | rewrite IH; reflexivity ]. Qed.

(** One escaped unit is read back as that unit. *)
Lemma parse_chars_quote_unit c rest :
  parse_chars (quote_unit c ++ rest) = cons_unit (code c) (parse_chars rest).
Proof.
  destruct c as [b0 b1 b2 b3 b4 b5 b6 b7].
  destruct b0, b1, b2, b3, b4, b5, b6, b7; reflexivity.
Qed.

Lemma parse_chars_quote_units s rest :
  parse_chars (quote_units s ++ String quote rest) = Some (units_of s, rest).
Proof.
  induction s as [|c s IH].
  - reflexivity.
  - change (quote_units (String c s)) with (quote_unit c ++ quote_units s).
    rewrite string_app_assoc, parse_chars_quote_unit, IH. reflexivity.
Qed.

Lemma stringify_string_app s rest :
  JSON_stringify_string s ++ rest = String quote (quote_units s ++ String quote rest).
Proof.
  unfold JSON_stringify_string. simpl. rewrite string_app_assoc. reflexivity.
Qed.

Lemma stringify_props_cons p q ps :
  stringify_props (p :: q :: ps) = member_text p ++ "," ++ stringify_props (q :: ps).
Proof.
  destruct p as [k v]. unfold member_text.
  change (stringify_props ((k, v) :: q :: ps))
    with (JSON_stringify_string k ++ ":" ++ JSON_stringify_string v ++ ","
          ++ stringify_props (q :: ps)).
  cbn [fst snd]. rewrite !string_app_assoc. reflexivity.
Qed.

Lemma stringify_props_more p ps :
  stringify_props (p :: ps) ++ "}" = member_text p ++ more_text ps.
Proof.
  revert p. induction ps as [|q ps IH]; intros p.
  - destruct p as [k v]. reflexivity.
  - rewrite stringify_props_cons. rewrite !string_app_assoc. rewrite IH.
    cbn [more_text]. rewrite ?string_app_assoc. reflexivity.
Qed.

Lemma skip_ws_quote x : skip_ws (String quote x) = String quote x.
Proof. reflexivity. Qed.

Lemma skip_ws_colon x : skip_ws (String ":" x) = String ":" x.
Proof. reflexivity. Qed.

Lemma skip_ws_comma x : skip_ws (String "," x) = String "," x.
Proof. reflexivity. Qed.

Lemma skip_ws_close x : skip_ws (String "}" x) = String "}" x.
Proof. reflexivity. Qed.

Lemma skip_ws_open x : skip_ws (String "{" x) = String "{" x.
Proof. reflexivity. Qed.

Lemma parse_value_string fuel s rest :
  parse_value (S fuel) (JSON_stringify_string s ++ rest) = Some (JString (units_of s), rest).
Proof.
  rewrite stringify_string_app. cbn [parse_value].
  rewrite skip_ws_quote. cbv beta match.
  replace (Ascii.eqb quote "{") with false by reflexivity.
  replace (Ascii.eqb quote "[") with false by reflexivity.
  rewrite Ascii.eqb_refl, parse_chars_quote_units. reflexivity.
Qed.

Lemma parse_member_text fuel kv rest :
  parse_member (S (S fuel)) (member_text kv ++ rest) = Some (member_json kv, rest).
Proof.
  destruct kv as [k v]. unfold member_text, member_json. cbn [fst snd].
  rewrite !string_app_assoc, stringify_string_app.
  cbn [parse_member].
  rewrite skip_ws_quote. cbv beta match.
  rewrite Ascii.eqb_refl, parse_chars_quote_units.
  cbn [append]. rewrite skip_ws_colon. cbv beta match.
  rewrite Ascii.eqb_refl, parse_value_string. reflexivity.
Qed.

Lemma parse_more_text ps : forall fuel rest,
  length ps + 2 <= fuel ->
  parse_more_members fuel (more_text ps ++ rest) = Some (map member_json ps, rest).
Proof.
  induction ps as [|p ps IH]; intros fuel rest Hf.
  - destruct fuel as [|fuel]; [ simpl in Hf; lia | ]. reflexivity.
  - destruct fuel as [|fuel]; [ simpl in Hf; lia | ].
    cbn [more_text]. rewrite !string_app_assoc. cbn [append].
    cbn [parse_more_members]. rewrite skip_ws_comma. cbv beta match.
    rewrite Ascii.eqb_refl.
    destruct fuel as [|[|fuel]]; simpl in Hf; try lia.
    rewrite parse_member_text. cbv beta match.
    rewrite IH by (simpl; lia). reflexivity.
Qed.

Lemma more_text_length ps : length ps < String.length (more_text ps).
Proof.
  induction ps as [|p ps IH]; simpl; [ lia | ].
  rewrite string_app_length. lia.
Qed.

Lemma skip_ws_member_text p rest :
  exists x, skip_ws (member_text p ++ rest) = String quote x.
Proof.
  destruct p as [k v]. unfold member_text. cbn [fst snd].
  rewrite !string_app_assoc, stringify_string_app. eexists. apply skip_ws_quote.
Qed.

Lemma member_text_length p : 1 <= String.length (member_text p).
Proof. destruct p as [k v]. unfold member_text, JSON_stringify_string. simpl. lia. Qed.

Lemma JSON_parse_stringify_object_text props :
  JSON_parse (JSON_stringify_object props) = Value (JObject (map member_json props)).
Proof.
  unfold JSON_parse, JSON_stringify_object.
  destruct props as [|p ps]; [ reflexivity | ].
  rewrite stringify_props_more.
  cbn [append String.length].
  pose proof (more_text_length ps) as Hlen.
  pose proof (member_text_length p) as Hmem.
  pose proof (string_app_length (member_text p) (more_text ps)) as Happ.
  remember (String.length (member_text p ++ more_text ps)) as L eqn:HL.
  destruct L as [|L]; [ lia | ].
  cbn [parse_value]. rewrite skip_ws_open. cbv beta match.
  rewrite Ascii.eqb_refl.
  destruct (skip_ws_member_text p (more_text ps)) as [x ->]. cbv beta match.
  replace (Ascii.eqb quote "}") with false by reflexivity.
  replace (member_text p ++ more_text ps) with (member_text p ++ more_text ps ++ "")
    by (rewrite <- string_app_assoc; generalize (member_text p ++ more_text ps);
        intros t; induction t as [|c t IH]; simpl; [ reflexivity | rewrite IH; reflexivity ]).
  destruct L as [|L]; [ lia | ].
  rewrite parse_member_text. cbv beta match.
  rewrite parse_more_text by lia. reflexivity.
Qed.

(** X17: What [JSON.stringify] writes for an object of strings
    [JSON.parse] reads back: an object with the same members, names and
    values unit for unit, in the order they were written.  In particular
    the text handed to the signer always parses. *)
Theorem JSON_parse_stringify_object props :
  JSON_parse (JSON_stringify_object props) = Value (JObject (map member_json props)).
Proof. exact (JSON_parse_stringify_object_text props). Qed.

Lemma units_of_inj s t : units_of s = units_of t -> s = t.
Proof.
  unfold units_of. intros H.
  rewrite <- (string_of_list_ascii_of_string s), <- (string_of_list_ascii_of_string t).
  f_equal. revert H. generalize (list_ascii_of_string s) (list_ascii_of_string t).
  induction l as [|a l IH]; intros [|b l']; simpl; intros H; try discriminate.
  - reflexivity.
  - inversion H as [[Hab Hl]]. unfold code in Hab.
    rewrite <- (ascii_N_embedding a), <- (ascii_N_embedding b), Hab.
    f_equal. apply IH. exact Hl.
Qed.

Lemma byte_of_ascii_inj a b : byte_of_ascii a = byte_of_ascii b -> a = b.
Proof.
  intros H. rewrite <- (ascii_of_byte_of_ascii a), <- (ascii_of_byte_of_ascii b), H.
  reflexivity.
Qed.

Lemma ascii_of_N_inj m n : (m < 256)%N -> (n < 256)%N -> ascii_of_N m = ascii_of_N n -> m = n.
Proof.
  intros Hm Hn H. rewrite <- (N_ascii_embedding m Hm), <- (N_ascii_embedding n Hn), H.
  reflexivity.
Qed.

Lemma code_bounded c : (code c < 256)%N.
Proof. unfold code. apply N_ascii_bounded. Qed.

Lemma code_inj a b : code a = code b -> a = b.
Proof.
  unfold code. intros H. rewrite <- (ascii_N_embedding a), <- (ascii_N_embedding b), H.
  reflexivity.
Qed.

Lemma byte_cons_inj (x y : ascii) (r r' : list byte) :
  byte_of_ascii x :: r = byte_of_ascii y :: r' -> x = y /\ r = r'.
Proof. intros H. injection H as H1 H2. apply byte_of_ascii_inj in H1. auto. Qed.

Lemma utf8_unit_prefix_free c c' r r' :
  (utf8_unit c ++ r = utf8_unit c' ++ r')%list -> c = c' /\ r = r'.
Proof.
  unfold utf8_unit.
  pose proof (code_bounded c) as Hc. pose proof (code_bounded c') as Hc'.
  pose proof (N.div_mod (code c) 64) as D. pose proof (N.div_mod (code c') 64) as D'.
  pose proof (N.mod_lt (code c) 64) as M. pose proof (N.mod_lt (code c') 64) as M'.
  assert (Q : (code c / 64 < 4)%N) by (apply N.Div0.div_lt_upper_bound; lia).
  assert (Q' : (code c' / 64 < 4)%N) by (apply N.Div0.div_lt_upper_bound; lia).
  cbv zeta.
  generalize dependent (code c / 64)%N. generalize dependent (code c mod 64)%N.
  generalize dependent (code c' / 64)%N. generalize dependent (code c' mod 64)%N.
  intros m' M' q' D' Q' m M q D Q.
  destruct (N.ltb_spec (code c) 128) as [L|L];
    destruct (N.ltb_spec (code c') 128) as [L'|L']; cbn [app]; intros H.
  - apply byte_cons_inj in H. exact H.
  - apply byte_cons_inj in H. destruct H as [H1 _]. exfalso.
    assert (E : code c = (192 + q')%N) by (rewrite H1; apply N_ascii_embedding; lia).
    lia.
  - apply byte_cons_inj in H. destruct H as [H1 _]. exfalso.
    assert (E : code c' = (192 + q)%N) by (rewrite <- H1; apply N_ascii_embedding; lia).
    lia.
  - apply byte_cons_inj in H. destruct H as [H1 H].
    apply byte_cons_inj in H. destruct H as [H3 H4].
    apply ascii_of_N_inj in H1; try lia.
    apply ascii_of_N_inj in H3; try lia.
    split; [ apply code_inj; lia | assumption ].
Qed.

Lemma Buffer_from_inj s t : Buffer_from s = Buffer_from t -> s = t.
Proof.
  revert t. induction s as [|c s IH]; intros [|c' t]; simpl; intros H.
  - reflexivity.
  - unfold utf8_unit in H. destruct (code c' <? 128)%N; discriminate.
  - unfold utf8_unit in H. destruct (code c <? 128)%N; discriminate.
  - apply utf8_unit_prefix_free in H. destruct H as [-> H]. f_equal. apply IH. exact H.
Qed.

Lemma in_sextets a : (a < 64)%N -> In a sextets.
Proof.
  intros H. unfold sextets. rewrite <- (N2Nat.id a). apply in_map.
  apply in_seq. lia.
Qed.

Lemma sextet_inj a b : (a < 64)%N -> (b < 64)%N -> sextet a = sextet b -> a = b.
Proof.
  intros Ha Hb H.
  assert (T : forallb (fun x => forallb (fun y => implb (Ascii.eqb (sextet x) (sextet y))
                                                    (N.eqb x y)) sextets) sextets = true)
    by (vm_compute; reflexivity).
  rewrite forallb_forall in T. specialize (T a (in_sextets a Ha)).
  rewrite forallb_forall in T. specialize (T b (in_sextets b Hb)).
  rewrite H, Ascii.eqb_refl in T. simpl in T. apply N.eqb_eq. exact T.
Qed.

Lemma sextet_not_pad a : (a < 64)%N -> sextet a <> "="%char.
Proof.
  intros Ha H.
  assert (T : forallb (fun x => negb (Ascii.eqb (sextet x) "=")) sextets = true)
    by (vm_compute; reflexivity).
  rewrite forallb_forall in T. specialize (T a (in_sextets a Ha)).
  rewrite H in T. discriminate T.
Qed.

Ltac divmod x k :=
  let D := fresh "D" in let M := fresh "M" in
  pose proof (N.div_mod x k ltac:(discriminate)) as D;
  pose proof (N.mod_lt x k ltac:(discriminate)) as M;
  generalize dependent (x / k)%N; generalize dependent (x mod k)%N; intros.

Lemma sextet_bounds x y z :
  (x < 256 -> y < 256 -> z < 256 ->
   x / 4 < 64 /\ x mod 4 * 16 < 64 /\ x mod 4 * 16 + y / 16 < 64
   /\ y mod 16 * 4 < 64 /\ y mod 16 * 4 + z / 64 < 64 /\ z mod 64 < 64)%N.
Proof.
  intros Hx Hy Hz. divmod x 4%N. divmod y 16%N. divmod z 64%N. lia.
Qed.

Lemma group1_inj x x' :
  (x < 256 -> x' < 256 -> x / 4 = x' / 4 -> x mod 4 * 16 = x' mod 4 * 16 -> x = x')%N.
Proof. intros Hx Hx'. divmod x 4%N. divmod x' 4%N. lia. Qed.

Lemma group2_inj x y x' y' :
  (x < 256 -> y < 256 -> x' < 256 -> y' < 256 ->
   x / 4 = x' / 4 -> x mod 4 * 16 + y / 16 = x' mod 4 * 16 + y' / 16 ->
   y mod 16 * 4 = y' mod 16 * 4 -> x = x' /\ y = y')%N.
Proof.
  intros Hx Hy Hx' Hy'.
  divmod x 4%N. divmod x' 4%N. divmod y 16%N. divmod y' 16%N. lia.
Qed.

Lemma group3_inj x y z x' y' z' :
  (x < 256 -> y < 256 -> z < 256 -> x' < 256 -> y' < 256 -> z' < 256 ->
   x / 4 = x' / 4 -> x mod 4 * 16 + y / 16 = x' mod 4 * 16 + y' / 16 ->
   y mod 16 * 4 + z / 64 = y' mod 16 * 4 + z' / 64 -> z mod 64 = z' mod 64 ->
   x = x' /\ y = y' /\ z = z')%N.
Proof.
  intros Hx Hy Hz Hx' Hy' Hz'.
  divmod x 4%N. divmod x' 4%N. divmod y 16%N. divmod y' 16%N.
  divmod z 64%N. divmod z' 64%N. lia.
Qed.

Lemma byte_lt a : (Byte.to_N a < 256)%N.
Proof. pose proof (Byte.to_N_bounded a). lia. Qed.

Lemma to_N_inj a b : Byte.to_N a = Byte.to_N b -> a = b.
Proof.
  intros H. pose proof (Byte.of_to_N a) as Ha. rewrite H, Byte.of_to_N in Ha.
  inversion Ha. reflexivity.
Qed.

Lemma string4_inj a b c d r a' b' c' d' r' :
  String a (String b (String c (String d r))) = String a' (String b' (String c' (String d' r')))
  -> a = a' /\ b = b' /\ c = c' /\ d = d' /\ r = r'.
Proof. intros H. injection H. auto. Qed.

Lemma list_ind3 {A} (P : list A -> Prop) :
  P [] -> (forall x, P [x]) -> (forall x y, P [x; y]) ->
  (forall x y z l, P l -> P (x :: y :: z :: l)) ->
  forall l, P l.
Proof.
  intros H0 H1 H2 H3.
  fix IH 1. intros [|x [|y [|z l]]];
    [ exact H0 | apply H1 | apply H2 | apply H3; apply IH ].
Qed.

Ltac use_bounds x y z :=
  let B := fresh "B" in
  pose proof (sextet_bounds (Byte.to_N x) (Byte.to_N y) (Byte.to_N z)
                (byte_lt x) (byte_lt y) (byte_lt z)) as B;
  destruct B as (? & ? & ? & ? & ? & ?).

Lemma toBase64_inj a : forall b, toBase64 a = toBase64 b -> a = b.
Proof.
  induction a as [|x|x y|x y z a IH] using list_ind3;
    intros [|x' [|y' [|z' b]]]; cbn [toBase64]; cbv zeta; intros H;
    try discriminate H; try reflexivity;
    apply string4_inj in H; destruct H as (H1 & H2 & H3 & H4 & H5);
    try use_bounds x x x; try use_bounds x y y; try use_bounds x y z;
    try use_bounds x' x' x'; try use_bounds x' y' y'; try use_bounds x' y' z';
    try (exfalso; first [ eapply sextet_not_pad; [ | exact H3 ]; assumption
                        | eapply sextet_not_pad; [ | symmetry; exact H3 ]; assumption
                        | eapply sextet_not_pad; [ | exact H4 ]; assumption
                        | eapply sextet_not_pad; [ | symmetry; exact H4 ]; assumption ]).
  - apply sextet_inj in H1; try assumption. apply sextet_inj in H2; try assumption.
    f_equal. apply to_N_inj.
    apply (group1_inj _ _ (byte_lt x) (byte_lt x') H1 H2).
  - apply sextet_inj in H1; try assumption. apply sextet_inj in H2; try assumption.
    apply sextet_inj in H3; try assumption.
    destruct (group2_inj _ _ _ _ (byte_lt x) (byte_lt y) (byte_lt x') (byte_lt y') H1 H2 H3)
      as [E1 E2].
    apply to_N_inj in E1. apply to_N_inj in E2. subst. reflexivity.
  - apply sextet_inj in H1; try assumption. apply sextet_inj in H2; try assumption.
    apply sextet_inj in H3; try assumption. apply sextet_inj in H4; try assumption.
    destruct (group3_inj _ _ _ _ _ _ (byte_lt x) (byte_lt y) (byte_lt z)
                (byte_lt x') (byte_lt y') (byte_lt z') H1 H2 H3 H4) as (E1 & E2 & E3).
    apply to_N_inj in E1. apply to_N_inj in E2. apply to_N_inj in E3. subst.
    f_equal. f_equal. f_equal. apply IH. exact H5.
Qed.

End Encoders.

(** X18: The payload handed to the signer determines the display name
    of the chain and the nonce it was built from: two challenges are the
    same string only when both are the same, so a signature over one
    nonce is never a signature over another. *)
Theorem challenge_binds_name_and_nonce d n d' n' :
  challengeData d n = challengeData d' n' -> d = d' /\ n = n'.
Proof.
  unfold challengeData. intros H.
  apply toBase64_inj, Buffer_from_inj in H.
  apply (f_equal JSON_parse) in H.
  rewrite !JSON_parse_stringify_object_text in H.
  unfold member_json in H. cbn [map fst snd] in H.
  injection H as Hd Hn.
  apply units_of_inj in Hd. apply units_of_inj in Hn.
  auto.
Qed.

Lemma challenge_binds_name_and_nonce_witness :
  challengeData "Cosmos Hub" "7" = challengeData "Cosmos Hub" "7"
  /\ challengeData "Cosmos Hub" "7" <> challengeData "Cosmos Hub" "77"
  /\ challengeData "Cosmos Hub" "7" <> challengeData "Cosmos Hu" "b7".
Proof.
  split; [ reflexivity | split ]; intros H;
    destruct (challenge_binds_name_and_nonce _ _ _ _ H) as [Hd Hn]; discriminate.
Defined.

(** X19: The identity the connect flow stores determines the key the
    agent handed out: two keys that differ, in their address or in one
    byte of their public key, are stored as different identities. *)
Theorem stored_identity_determines_key w chain key w' chain' key' :
  keplr_enable w (chainId chain) = Fulfilled tt ->
  keplr_getKey w (chainId chain) = Fulfilled key ->
  keplr_enable w' (chainId chain') = Fulfilled tt ->
  keplr_getKey w' (chainId chain') = Fulfilled key' ->
  walletInfo (ui (snd (connectWallet w chain (start initialState))))
  = walletInfo (ui (snd (connectWallet w' chain' (start initialState)))) ->
  key = key'.
Proof.
  intros He Hk He' Hk' H.
  assert (Hid : forall v c k,
            keplr_enable v (chainId c) = Fulfilled tt ->
            keplr_getKey v (chainId c) = Fulfilled k ->
            walletInfo (ui (snd (connectWallet v c (start initialState))))
            = Some {| address := bech32Address k; pubKey := toBase64 (key_pubKey k) |}).
  { intros v c k E K.
    rewrite (connectWallet_after_key v c k (start initialState) E K).
    match goal with
    | |- context [fetchMultisigs v c ?a ?r1] =>
        destruct (fetchMultisigs_frame v c a r1) as (_ & _ & Hw & _);
        destruct (fetchMultisigs v c a r1) as [[u|e|] r2]; simpl in *;
        rewrite Hw; reflexivity
    end. }
  rewrite (Hid w chain key He Hk), (Hid w' chain' key' He' Hk') in H.
  injection H as Ha Hp. apply toBase64_inj in Hp.
  destruct key, key'. simpl in *. subst. reflexivity.
Qed.

Lemma stored_identity_determines_key_witness :
  keplr_getKey (Samples.answering Samples.aliceKey Samples.twoAndFive)
    (chainId Samples.cosmoshub) = Fulfilled Samples.aliceKey
  /\ keplr_getKey Scenarios.listHangs (chainId Samples.otherhub) = Fulfilled Samples.aliceKey
  /\ walletInfo (ui (snd (connectWallet
                            (Samples.answering Samples.aliceKey Samples.twoAndFive)
                            Samples.cosmoshub (start initialState))))
     = walletInfo (ui (snd (connectWallet Scenarios.listHangs Samples.otherhub
                              (start initialState))))
  /\ Samples.aliceKey = Samples.aliceKey.
Proof.
  do 3 (split; [ reflexivity | ]).
  exact (stored_identity_determines_key
           (Samples.answering Samples.aliceKey Samples.twoAndFive) Samples.cosmoshub
           Samples.aliceKey Scenarios.listHangs Samples.otherhub Samples.aliceKey
           eq_refl eq_refl eq_refl eq_refl eq_refl).
Defined.

(** ** Two more facts on the flows *)

(** X20: [getSignature] neither reads nor writes the component's
    state: it leaves every cell as it found it, and what it returns and
    the calls it makes are the same from whatever state it is started
    in. *)
Theorem getSignature_ignores_the_state w chain a st st' :
  ui (snd (getSignature w chain a (start st))) = st
  /\ fst (getSignature w chain a (start st)) = fst (getSignature w chain a (start st'))
  /\ log (snd (getSignature w chain a (start st)))
     = log (snd (getSignature w chain a (start st'))).
Proof.
  task_unfold. simpl.
  repeat (next_call; simpl); repeat split.
Qed.

(** X21: When a result is held and a reconnection obtains a key but
    then fails in the fetch flow, the identity becomes the one of the
    new key while the result stays the one fetched before, and the
    render is the same as before the reconnection: the rows on screen
    are still those fetched for the previous identity. *)
Theorem failed_reconnection_keeps_the_old_rows w chain r key e m :
  multisigs (ui r) = Some m ->
  keplr_enable w (chainId chain) = Fulfilled tt ->
  keplr_getKey w (chainId chain) = Fulfilled key ->
  FetchFailure w chain (bech32Address key) e ->
  walletInfo (ui (snd (connectWallet w chain r)))
  = Some {| address := bech32Address key; pubKey := toBase64 (key_pubKey key) |}
  /\ multisigs (ui (snd (connectWallet w chain r))) = Some m
  /\ render chain (ui (snd (connectWallet w chain r))) = render chain (ui r).
Proof.
  intros Hm He Hk F.
  destruct (connectWallet_fetch_failure w chain key r e He Hk F) as [made Hrun].
  rewrite Hrun. simpl. repeat split; [ exact Hm | ].
  unfold render, renderListSection. simpl. rewrite Hm.
  destruct (walletInfo (ui r)); reflexivity.
Qed.

Lemma failed_reconnection_keeps_the_old_rows_witness :
  multisigs (ui (start (Samples.holding false Samples.twoAndFive))) = Some Samples.twoAndFive
  /\ keplr_getKey Samples.listDown (chainId Samples.cosmoshub) = Fulfilled Samples.aliceKey
  /\ FetchFailure Samples.listDown Samples.cosmoshub "cosmos1alice" (Error "401 Unauthorized")
  /\ render Samples.cosmoshub
       (ui (snd (connectWallet Samples.listDown Samples.cosmoshub
                   (start (setWalletInfo (Some Scenarios.bobInfo)
                             (Samples.holding false Samples.twoAndFive))))))
     = render Samples.cosmoshub
         (setWalletInfo (Some Scenarios.bobInfo) (Samples.holding false Samples.twoAndFive))
  /\ walletInfo
       (ui (snd (connectWallet Samples.listDown Samples.cosmoshub
                   (start (setWalletInfo (Some Scenarios.bobInfo)
                             (Samples.holding false Samples.twoAndFive))))))
     = Some Samples.aliceInfo.
Proof.
  destruct (failed_reconnection_keeps_the_old_rows Samples.listDown Samples.cosmoshub
              (start (setWalletInfo (Some Scenarios.bobInfo)
                        (Samples.holding false Samples.twoAndFive)))
              Samples.aliceKey (Error "401 Unauthorized") Samples.twoAndFive
              eq_refl eq_refl eq_refl listDown_failure) as (Hw & _ & Hr).
  split; [ reflexivity | split; [ reflexivity | split; [ exact listDown_failure | ] ] ].
  split; [ exact Hr | exact Hw ].
Defined.
